(** * jetforce: the per-connection Gemini request handler (jetforce/protocol.py)

    A shallow embedding of [GeminiProtocol]: the request parser, the
    buffered status line and body writer, the environ builder, the access
    logger and the coroutine [_handle_request_noblock] that ties them
    together, followed by the properties of the handler.

    Conventions of the embedding.
    - A Python [bytes] value is a [list byte].
    - A Python [str] is represented by the UTF-8 code units of its text, as
      a Rocq [string], a lone surrogate by its three-unit form;
      [bytes.decode()] is strict UTF-8 validation, and [str.encode()]
      reads the units back when they are strict UTF-8 and raises
      [UnicodeEncodeError] when they are not.  The handler never indexes
      or measures a [str]; it only concatenates, tests emptiness, encodes
      and decodes.
    - [flush_status] and [write_body] give the state after a call that
      returns; [try_flush_status] and [try_write_body] are the calls
      themselves, which can raise, and are what the handler runs.
    - A Python [int] is a [Z].
    - Attributes that the class only annotates ([url], [status], [meta],
      [request]) are [option] fields: [None] is "attribute not set", and
      reading it is Python's [AttributeError].
    - The transport and the server log are external objects; what the
      handler does to them is recorded, in order, in the [trace] field. *)

From Stdlib Require Import ZArith Lia List Strings.Byte Ascii String.
From stdpp Require Import base gmap strings pretty.
Import ListNotations.

Local Open Scope Z_scope.

(** ** Text and bytes *)

Abbreviation str := string (only parsing).
Abbreviation bytes := (list byte) (only parsing).

Definition TAB : str := String "009" EmptyString.
Definition CR : str := String "013" EmptyString.
Definition LF : str := String "010" EmptyString.
Definition CRLF : str := CR +:+ LF.
Definition DQUOTE : str := String "034" EmptyString.

(** Whether a text contains a TAB. *)
Fixpoint has_tab (s : str) : bool :=
  match s with
  | EmptyString => false
  | String c s => Ascii.eqb c "009" || has_tab s
  end.

(** [len(b)] for a bytes object. *)
Definition len (b : bytes) : Z := Z.of_nat (length b).

(** Truth value of a [str] and of an [int] in a condition. *)
Definition str_truthy (s : str) : bool :=
  match s with
  | EmptyString => false
  | String _ _ => true
  end.

Definition int_truthy (n : Z) : bool := negb (n =? 0).

Module Utf8.

Definition in_range (lo hi : N) (b : byte) : bool :=
  ((lo <=? Byte.to_N b) && (Byte.to_N b <=? hi))%N.

Definition continuation : byte -> bool := in_range 0x80 0xBF.

(** Second byte of a three-byte sequence: no overlong forms after E0, no
    surrogates after ED. *)
Definition second_of_three (b0 b1 : byte) : bool :=
  if (Byte.to_N b0 =? 0xE0)%N then in_range 0xA0 0xBF b1
  else if (Byte.to_N b0 =? 0xED)%N then in_range 0x80 0x9F b1
  else continuation b1.

(** Second byte of a four-byte sequence: no overlong forms after F0,
    nothing above U+10FFFF after F4. *)
Definition second_of_four (b0 b1 : byte) : bool :=
  if (Byte.to_N b0 =? 0xF0)%N then in_range 0x90 0xBF b1
  else if (Byte.to_N b0 =? 0xF4)%N then in_range 0x80 0x8F b1
  else continuation b1.

(** Well-formed UTF-8, as the strict codec accepts it. *)
Fixpoint well_formed (bs : bytes) : bool :=
  match bs with
  | [] => true
  | b0 :: rest =>
      if in_range 0x00 0x7F b0 then well_formed rest
      else if in_range 0xC2 0xDF b0 then
        match rest with
        | b1 :: rest1 => continuation b1 && well_formed rest1
        | _ => false
        end
      else if in_range 0xE0 0xEF b0 then
        match rest with
        | b1 :: b2 :: rest2 =>
            second_of_three b0 b1 && continuation b2 && well_formed rest2
        | _ => false
        end
      else if in_range 0xF0 0xF4 b0 then
        match rest with
        | b1 :: b2 :: b3 :: rest3 =>
            second_of_four b0 b1 && continuation b2 && continuation b3
            && well_formed rest3
        | _ => false
        end
      else false
  end.

(** [s.encode()] *)
Definition encode (s : str) : bytes := list_byte_of_string s.

(** Whether [s.encode()] returns: a text with a lone surrogate has no
    UTF-8 encoding. *)
Definition encodable (s : str) : bool := well_formed (list_byte_of_string s).

(** [b.decode()]: [None] stands for [UnicodeDecodeError]. *)
Definition decode (b : bytes) : option str :=
  if well_formed b then Some (string_of_list_byte b) else None.

End Utf8.

(** ** Exceptions and results *)

(** An exception instance: its class name and its message.  For a class
    defined outside the builtins the name is that of the builtin class it
    derives from. *)
Record exn := Exception { exn_class : str; exn_message : str }.

Definition ValueError := Exception "ValueError".
Definition UnicodeDecodeError := Exception "UnicodeDecodeError".
Definition UnicodeEncodeError := Exception "UnicodeEncodeError".
Definition KeyError := Exception "KeyError".
Definition AttributeError := Exception "AttributeError".

(** The builtin classes that derive from [BaseException] and not from
    [Exception]. *)
Definition outside_Exception : list str :=
  [ "BaseException"; "SystemExit"; "KeyboardInterrupt"; "GeneratorExit" ].

(** [isinstance(e, Exception)]: what an [except Exception] clause
    catches. *)
Definition is_Exception (e : exn) : bool :=
  negb (existsb (String.eqb (exn_class e)) outside_Exception).

Inductive result (A : Type) : Type :=
| Ok (a : A)
| Raise (e : exn).
Arguments Ok {A} a.
Arguments Raise {A} e.

(** Sequencing: the first exception raised ends the computation. *)
#[export] Instance result_bind : MBind result := fun A B k r =>
  match r with
  | Ok a => k a
  | Raise e => Raise e
  end.

(** [s.encode()] as a call. *)
Definition str_encode (s : str) : result bytes :=
  if Utf8.encodable s then Ok (Utf8.encode s)
  else Raise (UnicodeEncodeError "surrogates not allowed").

(** ** Values handed to the application

    The environ dictionary is a [typing.Dict[str, typing.Any]]; these are
    the kinds of value the handler puts into it.  [C] is the type of the
    certificate object stored under [client_certificate]. *)

Inductive value (C : Type) : Type :=
| VNone
| VStr (s : str)
| VBool (b : bool)
| VInt (n : Z)
| VCert (c : C).
Arguments VNone {C}.
Arguments VStr {C} s.
Arguments VBool {C} b.
Arguments VInt {C} n.
Arguments VCert {C} c.

(** The attributes of [urllib.parse.ParseResult] the handler reads. *)
Record ParseResult := { path : str; query : str }.

(** ** External collaborators

    What the module imports and the objects twisted hands to it. *)

Class Runtime := {
  (** [time.struct_time] and [time.strftime] *)
  struct_time : Type;
  strftime : str -> struct_time -> str;
  (** [urllib.parse.urlparse(url)]: [None] stands for the [ValueError] it
      raises on a URL it cannot split *)
  urlparse : str -> option ParseResult;
  (** pyOpenSSL's certificate object and [cert.to_cryptography()] *)
  X509 : Type;
  x509_Certificate : Type;
  to_cryptography : X509 -> x509_Certificate;
  (** [jetforce.tls.inspect_certificate]: a dictionary of certificate
      fields, or the exception it raises *)
  inspect_certificate :
    x509_Certificate -> result (gmap string (value x509_Certificate));
  (** what it raises is an ordinary error *)
  inspect_certificate_raises :
    forall c e, inspect_certificate c = Raise e -> is_Exception e = true;
  (** [jetforce.__version__.__version__] *)
  __version__ : str;
  (** [Status.BAD_REQUEST] and [Status.CGI_ERROR] of [jetforce.app.base] *)
  BAD_REQUEST : Z;
  CGI_ERROR : Z;
}.

Section Protocol.

Context `{RT : Runtime}.

Abbreviation any := (value x509_Certificate) (only parsing).

(** [IPv4Address] / [IPv6Address]: the two attributes the handler reads. *)
Record Address := { host : str; port : Z }.

(** The OpenSSL connection behind the transport ([transport.getHandle()]):
    the attribute [verified], which the TLS handshake may have stashed, and
    the results of [get_cipher_name()] and [get_protocol_version_name()]. *)
Record Connection := {
  verified : option any;
  get_cipher_name : any;
  get_protocol_version_name : any;
}.

(** The parts of the twisted transport the handler reads. *)
Record Transport := {
  getPeer : Address;
  getPeerCertificate : option X509;
  getHandle : Connection;
}.

(** [GeminiServer], as far as the handler uses it. *)
Record GeminiServer := {
  hostname : str;
  (** the port the server listens on; nothing in the handler reads it *)
  listening_port : Z;
}.

(** What reaches the server log: the text of [traceback.format_exc()] for
    the exception being handled, or a formatted access line. *)
Inductive log_text :=
| format_exc (e : exn)
| access_line (message : str).

(** Calls made on the transport and on the server, in order. *)
Inductive event :=
| transport_write (data : bytes)
| transport_loseConnection
| server_log_message (text : log_text).

(** The protocol instance: one per connection. *)
Record GeminiProtocol := {
  server : GeminiServer;
  transport : Transport;
  client_addr : Address;
  connected_timestamp : struct_time;
  request : option bytes;
  url : option str;
  status : option Z;
  meta : option str;
  response_buffer : str;
  response_size : Z;
  trace : list event;
}.

Definition set_request (v : bytes) (self : GeminiProtocol) : GeminiProtocol :=
  {| server := server self; transport := transport self;
     client_addr := client_addr self;
     connected_timestamp := connected_timestamp self;
     request := Some v; url := url self; status := status self;
     meta := meta self; response_buffer := response_buffer self;
     response_size := response_size self; trace := trace self |}.

Definition set_url (v : str) (self : GeminiProtocol) : GeminiProtocol :=
  {| server := server self; transport := transport self;
     client_addr := client_addr self;
     connected_timestamp := connected_timestamp self;
     request := request self; url := Some v; status := status self;
     meta := meta self; response_buffer := response_buffer self;
     response_size := response_size self; trace := trace self |}.

Definition set_status (v : Z) (self : GeminiProtocol) : GeminiProtocol :=
  {| server := server self; transport := transport self;
     client_addr := client_addr self;
     connected_timestamp := connected_timestamp self;
     request := request self; url := url self; status := Some v;
     meta := meta self; response_buffer := response_buffer self;
     response_size := response_size self; trace := trace self |}.

Definition set_meta (v : str) (self : GeminiProtocol) : GeminiProtocol :=
  {| server := server self; transport := transport self;
     client_addr := client_addr self;
     connected_timestamp := connected_timestamp self;
     request := request self; url := url self; status := status self;
     meta := Some v; response_buffer := response_buffer self;
     response_size := response_size self; trace := trace self |}.

Definition set_response_buffer (v : str) (self : GeminiProtocol)
  : GeminiProtocol :=
  {| server := server self; transport := transport self;
     client_addr := client_addr self;
     connected_timestamp := connected_timestamp self;
     request := request self; url := url self; status := status self;
     meta := meta self; response_buffer := v;
     response_size := response_size self; trace := trace self |}.

Definition set_response_size (v : Z) (self : GeminiProtocol)
  : GeminiProtocol :=
  {| server := server self; transport := transport self;
     client_addr := client_addr self;
     connected_timestamp := connected_timestamp self;
     request := request self; url := url self; status := status self;
     meta := meta self; response_buffer := response_buffer self;
     response_size := v; trace := trace self |}.

(** Record one more call on the transport or the server. *)
Definition emit (e : event) (self : GeminiProtocol) : GeminiProtocol :=
  {| server := server self; transport := transport self;
     client_addr := client_addr self;
     connected_timestamp := connected_timestamp self;
     request := request self; url := url self; status := status self;
     meta := meta self; response_buffer := response_buffer self;
     response_size := response_size self; trace := trace self ++ [e] |}.

(** [__init__] followed by [connectionMade]: [now] is [time.localtime()]. *)
Definition connectionMade (srv : GeminiServer) (tr : Transport)
    (now : struct_time) : GeminiProtocol :=
  {| server := srv; transport := tr;
     client_addr := getPeer tr;
     connected_timestamp := now;
     request := None; url := None; status := None; meta := None;
     response_buffer := EmptyString;
     response_size := 0; trace := [] |}.

(** ** Request parser *)

(** [parse_header] *)
Definition parse_header (self : GeminiProtocol) : result GeminiProtocol :=
  match request self with
  | None => Raise (AttributeError "request")
  | Some line =>
      if len line >? 1024 then
        Raise (ValueError "URL exceeds max length of 1024 bytes")
      else
        match Utf8.decode line with
        | None => Raise (UnicodeDecodeError "invalid utf-8")
        | Some text => Ok (set_url text self)
        end
  end.

(** ** Response writer *)

(** The f-string [f"{status}\t{meta}\r\n"]. *)
Definition status_line (status : Z) (meta : str) : str :=
  pretty status +:+ TAB +:+ meta +:+ CRLF.

(** [write_status] *)
Definition write_status (status : Z) (meta : str) (self : GeminiProtocol)
  : GeminiProtocol :=
  let self := set_status status self in
  let self := set_meta meta self in
  set_response_buffer (status_line status meta) self.

(** [flush_status] *)
Definition flush_status (self : GeminiProtocol) : GeminiProtocol :=
  let self :=
    if str_truthy (response_buffer self)
       && negb (int_truthy (response_size self))
    then
      let data := Utf8.encode (response_buffer self) in
      let self := set_response_size (response_size self + len data) self in
      emit (transport_write data) self
    else self in
  set_response_buffer EmptyString self.

(** A chunk produced by the application: [typing.Union[str, bytes]]. *)
Inductive chunk :=
| Str (s : str)
| Bytes (b : bytes).

(** The bytes of a chunk: [data.encode()] for text, [data] itself for
    bytes. *)
Definition chunk_bytes (data : chunk) : bytes :=
  match data with
  | Str s => Utf8.encode s
  | Bytes b => b
  end.

(** [write_body] *)
Definition write_body (data : chunk) (self : GeminiProtocol)
  : GeminiProtocol :=
  let data := chunk_bytes data in
  let self := flush_status self in
  let self := set_response_size (response_size self + len data) self in
  emit (transport_write data) self.

(** Whether the encoding of a chunk returns. *)
Definition chunk_encodable (data : chunk) : bool :=
  match data with
  | Str s => Utf8.encodable s
  | Bytes _ => true
  end.

(** [flush_status] as a call: encoding the buffer can raise, before
    anything is changed. *)
Definition try_flush_status (self : GeminiProtocol) : result GeminiProtocol :=
  if str_truthy (response_buffer self)
     && negb (int_truthy (response_size self))
  then
    data ← str_encode (response_buffer self);
    let self := set_response_size (response_size self + len data) self in
    let self := emit (transport_write data) self in
    Ok (set_response_buffer EmptyString self)
  else Ok (set_response_buffer EmptyString self).

(** [write_body] as a call: encoding the chunk can raise, and so can the
    flush, in both cases before anything is changed. *)
Definition try_write_body (data : chunk) (self : GeminiProtocol)
  : result GeminiProtocol :=
  data ← match data with
         | Str s => str_encode s
         | Bytes b => Ok b
         end;
  self ← try_flush_status self;
  let self := set_response_size (response_size self + len data) self in
  Ok (emit (transport_write data) self).

(** ** Access logger *)

Definition TIMESTAMP_FORMAT : str := "%d/%b/%Y:%H:%M:%S %z".

(** The log format with its six fields filled in. *)
Definition format_message (peer_host timestamp url_ : str) (status_ : Z)
    (meta_ : str) (size : Z) : str :=
  peer_host +:+ " [" +:+ timestamp +:+ "] " +:+ DQUOTE +:+ url_ +:+ DQUOTE
  +:+ " " +:+ pretty status_ +:+ " " +:+ meta_ +:+ " " +:+ pretty size.

(** [log_request]: reading an attribute that was never set raises
    [AttributeError], which the method swallows without logging. *)
Definition log_request (self : GeminiProtocol) : GeminiProtocol :=
  match url self, status self, meta self with
  | Some url_, Some status_, Some meta_ =>
      let message :=
        format_message (host (client_addr self))
          (strftime TIMESTAMP_FORMAT (connected_timestamp self))
          url_ status_ meta_ (response_size self) in
      emit (server_log_message (access_line message)) self
  | _, _, _ => self
  end.

(** ** Context builder *)

(** [d[key]] *)
Definition getitem (d : gmap string any) (key : str) : result any :=
  match d !! key with
  | Some v => Ok v
  | None => Raise (KeyError key)
  end.

(** [build_environ]: a dictionary literal, updated in place when the peer
    presented a certificate. *)
Definition build_environ (self : GeminiProtocol)
  : result (gmap string any) :=
  match url self with
  | None => Raise (AttributeError "url")
  | Some url_ =>
      url_parts ← match urlparse url_ with
                  | Some parts => Ok parts
                  | None => Raise (ValueError "invalid URL")
                  end;
      let environ : gmap string any :=
        list_to_map [
          ("GEMINI_URL", VStr url_);
          ("HOSTNAME", VStr (hostname (server self)));
          ("PATH_INFO", VStr (path url_parts));
          ("QUERY_STRING", VStr (query url_parts));
          ("REMOTE_ADDR", VStr (host (client_addr self)));
          ("REMOTE_HOST", VStr (host (client_addr self)));
          ("SERVER_NAME", VStr (hostname (server self)));
          ("SERVER_PORT", VStr (pretty (port (client_addr self))));
          ("SERVER_PROTOCOL", VStr "GEMINI");
          ("SERVER_SOFTWARE", VStr ("jetforce/" +:+ __version__));
          ("client_certificate", VNone)
        ] in
      match getPeerCertificate (transport self) with
      | Some cert =>
          let x509_cert := to_cryptography cert in
          cert_data ← inspect_certificate x509_cert;
          let conn := getHandle (transport self) in
          common_name ← getitem cert_data "common_name";
          fingerprint ← getitem cert_data "fingerprint";
          not_before ← getitem cert_data "not_before";
          not_after ← getitem cert_data "not_after";
          serial_number ← getitem cert_data "serial_number";
          let update : gmap string any :=
            list_to_map [
              ("client_certificate", VCert x509_cert);
              ("AUTH_TYPE", VStr "CERTIFICATE");
              ("REMOTE_USER", common_name);
              ("TLS_CLIENT_HASH", fingerprint);
              ("TLS_CLIENT_NOT_BEFORE", not_before);
              ("TLS_CLIENT_NOT_AFTER", not_after);
              ("TLS_CLIENT_SERIAL_NUMBER", serial_number);
              ("TLS_CLIENT_VERIFIED",
                 default (VBool false) (verified conn));
              ("TLS_CIPHER", get_cipher_name conn);
              ("TLS_VERSION", get_protocol_version_name conn)
            ] in
          Ok (update ∪ environ)
      | None => Ok environ
      end
  end.

(** ** The application

    The application is opaque code that receives the environ and the bound
    method [write_status].  Its behaviour, as the handler sees it: each
    step (the call itself, then every [__next__] on what it returned) makes
    some calls to [write_status] and then yields a chunk, finishes, or
    raises. *)

Inductive generator :=
| StopIteration (calls : list (Z * str))
| GeneratorRaise (calls : list (Z * str)) (e : exn)
| Yield (calls : list (Z * str)) (data : chunk) (rest : generator).

Inductive app_outcome :=
| AppReturn (calls : list (Z * str)) (response_generator : generator)
| AppRaise (calls : list (Z * str)) (e : exn).

Definition JetforceApplication : Type := gmap string any -> app_outcome.

(** The [write_status] calls of one application step, in order. *)
Definition write_statuses (calls : list (Z * str)) (self : GeminiProtocol)
  : GeminiProtocol :=
  fold_left (fun self c => write_status (fst c) (snd c) self) calls self.

(** ** Connection handler *)

(** [isinstance(e, StopIteration)]: what the [except StopIteration]
    clause of the loop catches. *)
Definition is_StopIteration (e : exn) : bool :=
  String.eqb (exn_class e) "StopIteration".

(** The [while True] loop: pull chunks until [StopIteration]; the second
    component is the exception that escaped, if any: one raised by the
    generator, or by [write_body] on a chunk. *)
Fixpoint pull_chunks (g : generator) (self : GeminiProtocol)
  : GeminiProtocol * option exn :=
  match g with
  | StopIteration calls => (write_statuses calls self, None)
  | GeneratorRaise calls e =>
      (write_statuses calls self,
       if is_StopIteration e then None else Some e)
  | Yield calls data rest =>
      let self := write_statuses calls self in
      match try_write_body data self with
      | Ok self => pull_chunks rest self
      | Raise e => (self, Some e)
      end
  end.

(** The body of the second [try]. *)
Definition dispatch (app : JetforceApplication) (self : GeminiProtocol)
  : GeminiProtocol * option exn :=
  match build_environ self with
  | Raise e => (self, Some e)
  | Ok environ =>
      match app environ with
      | AppRaise calls e => (write_statuses calls self, Some e)
      | AppReturn calls response_generator =>
          pull_chunks response_generator (write_statuses calls self)
      end
  end.

(** The [except Exception] clause of the second [try]. *)
Definition on_error (e : exn) (self : GeminiProtocol) : GeminiProtocol :=
  let self := emit (server_log_message (format_exc e)) self in
  write_status CGI_ERROR "An unexpected error occurred" self.

(** The [finally] clause of the second [try].  [in_flight] is the
    exception the [try] statement did not catch, re-raised when the clause
    is done; an exception raised by the flush ends the clause at once and
    takes its place. *)
Definition finally (in_flight : option exn) (self : GeminiProtocol)
  : GeminiProtocol * option exn :=
  match try_flush_status self with
  | Raise e => (self, Some e)
  | Ok self =>
      let self := log_request self in
      let self := emit transport_loseConnection self in
      (self, in_flight)
  end.

(** [_handle_request_noblock]: the final state of the connection and the
    exception the coroutine ends with, if any. *)
Definition _handle_request_noblock (app : JetforceApplication)
    (self : GeminiProtocol) : GeminiProtocol * option exn :=
  match parse_header self with
  | Raise e =>
      if is_Exception e then
        let self := emit (server_log_message (format_exc e)) self in
        let self := write_status BAD_REQUEST "Malformed request" self in
        match try_flush_status self with
        | Raise e' => (self, Some e')
        | Ok self =>
            let self := emit transport_loseConnection self in
            (self, Some e)
        end
      else (self, Some e)
  | Ok self =>
      let (self, raised) := dispatch app self in
      match raised with
      | Some e =>
          if is_Exception e then finally None (on_error e self)
          else finally (Some e) self
      | None => finally None self
      end
  end.

(** [lineReceived] *)
Definition lineReceived (app : JetforceApplication) (line : bytes)
    (self : GeminiProtocol) : GeminiProtocol * option exn :=
  _handle_request_noblock app (set_request line self).

(** ** Sequences of writer calls *)

Inductive call :=
| WriteStatus (status_ : Z) (meta_ : str)
| WriteBody (data : chunk)
| FlushStatus.

Definition run_call (c : call) (self : GeminiProtocol) : GeminiProtocol :=
  match c with
  | WriteStatus status_ meta_ => write_status status_ meta_ self
  | WriteBody data => write_body data self
  | FlushStatus => flush_status self
  end.

Definition run_calls (cs : list call) (self : GeminiProtocol)
  : GeminiProtocol :=
  fold_left (fun self c => run_call c self) cs self.

(** The same calls as the handler makes them: the first one that raises
    ends the sequence. *)
Definition try_run_call (c : call) (self : GeminiProtocol)
  : result GeminiProtocol :=
  match c with
  | WriteStatus status_ meta_ => Ok (write_status status_ meta_ self)
  | WriteBody data => try_write_body data self
  | FlushStatus => try_flush_status self
  end.

Fixpoint try_run_calls (cs : list call) (self : GeminiProtocol)
  : result GeminiProtocol :=
  match cs with
  | [] => Ok self
  | c :: cs => self ← try_run_call c self; try_run_calls cs self
  end.

(** Whether every chunk among the calls can be encoded. *)
Definition chunks_encodable (cs : list call) : bool :=
  forallb (fun c => match c with
                    | WriteBody data => chunk_encodable data
                    | _ => true
                    end) cs.

(** The payloads of the [write_body] calls, in order. *)
Fixpoint bodies (cs : list call) : list bytes :=
  match cs with
  | [] => []
  | WriteBody data :: cs => chunk_bytes data :: bodies cs
  | _ :: cs => bodies cs
  end.


(** The arguments of the last [write_status] call, if there is one. *)
Fixpoint last_status (cs : list call) (acc : option (Z * str))
  : option (Z * str) :=
  match cs with
  | [] => acc
  | WriteStatus status_ meta_ :: cs => last_status cs (Some (status_, meta_))
  | _ :: cs => last_status cs acc
  end.

(** ** Reading a trace *)

(** The chunks handed to [transport.write], oldest first. *)
Fixpoint written (t : list event) : list bytes :=
  match t with
  | [] => []
  | transport_write data :: t => data :: written t
  | _ :: t => written t
  end.

(** The byte stream the client receives. *)
Definition socket_bytes (t : list event) : bytes := concat (written t).

(** Number of [transport.loseConnection()] calls. *)
Fixpoint closes (t : list event) : nat :=
  match t with
  | [] => 0%nat
  | transport_loseConnection :: t => S (closes t)
  | _ :: t => closes t
  end.

(** The access lines sent to the server log, oldest first. *)
Fixpoint access_lines (t : list event) : list str :=
  match t with
  | [] => []
  | server_log_message (access_line m) :: t => m :: access_lines t
  | _ :: t => access_lines t
  end.


(** The nine keys of the TLS identity block. *)
Definition tls_keys : list str :=
  [ "AUTH_TYPE"; "REMOTE_USER"; "TLS_CLIENT_HASH"; "TLS_CLIENT_NOT_BEFORE";
    "TLS_CLIENT_NOT_AFTER"; "TLS_CLIENT_SERIAL_NUMBER";
    "TLS_CLIENT_VERIFIED"; "TLS_CIPHER"; "TLS_VERSION" ].

(** Total size of a list of chunks. *)
Definition total_len (l : list bytes) : Z :=
  fold_right (fun b n => len b + n) 0 l.

(** ** The application's steps as writer calls *)

Definition status_calls (calls : list (Z * str)) : list call :=
  map (fun c => WriteStatus (fst c) (snd c)) calls.

(** Everything a generator does to the writer before it stops or raises. *)
Fixpoint generator_calls (g : generator) : list call :=
  match g with
  | StopIteration calls => status_calls calls
  | GeneratorRaise calls _ => status_calls calls
  | Yield calls data rest =>
      status_calls calls ++ WriteBody data :: generator_calls rest
  end.

(** The exception a generator ends with, if it does not stop normally. *)
Fixpoint generator_error (g : generator) : option exn :=
  match g with
  | StopIteration _ => None
  | GeneratorRaise _ e => if is_StopIteration e then None else Some e
  | Yield _ _ rest => generator_error rest
  end.

Definition outcome_calls (o : app_outcome) : list call :=
  match o with
  | AppReturn calls g => status_calls calls ++ generator_calls g
  | AppRaise calls _ => status_calls calls
  end.

Definition outcome_error (o : app_outcome) : option exn :=
  match o with
  | AppReturn _ g => generator_error g
  | AppRaise _ e => Some e
  end.

(** The exceptions whose traceback reached the server log, oldest first. *)
Fixpoint tracebacks (t : list event) : list exn :=
  match t with
  | [] => []
  | server_log_message (format_exc e) :: t => e :: tracebacks t
  | _ :: t => tracebacks t
  end.

(** The keys [build_environ] reads from the inspected certificate, in the
    order it reads them. *)
Definition certificate_fields : list str :=
  [ "common_name"; "fingerprint"; "not_before"; "not_after";
    "serial_number" ].

(** The keys of the dictionary literal [build_environ] starts from. *)
Definition base_keys : list str :=
  [ "GEMINI_URL"; "HOSTNAME"; "PATH_INFO"; "QUERY_STRING"; "REMOTE_ADDR";
    "REMOTE_HOST"; "SERVER_NAME"; "SERVER_PORT"; "SERVER_PROTOCOL";
    "SERVER_SOFTWARE"; "client_certificate" ].

(** The same connection with a transport that shows no peer certificate. *)
Definition without_certificate (self : GeminiProtocol) : GeminiProtocol :=
  {| server := server self;
     transport :=
       {| getPeer := getPeer (transport self);
          getPeerCertificate := None;
          getHandle := getHandle (transport self) |};
     client_addr := client_addr self;
     connected_timestamp := connected_timestamp self;
     request := request self; url := url self; status := status self;
     meta := meta self; response_buffer := response_buffer self;
     response_size := response_size self; trace := trace self |}.

(** Two states of one connection: the attributes that identify the
    connection and its request are the same. *)
Definition same_connection (a b : GeminiProtocol) : Prop :=
  server b = server a
  /\ transport b = transport a
  /\ client_addr b = client_addr a
  /\ connected_timestamp b = connected_timestamp a
  /\ request b = request a
  /\ url b = url a.

(** All bytes below 0x80. *)
Definition is_ascii (b : bytes) : bool :=
  forallb (fun c => (Byte.to_N c <? 0x80)%N) b.

End Protocol.

(** ** A concrete runtime for the examples

    Certificates are identified by their subject name; the status codes are
    those of [jetforce.app.base.Status]. *)

Module Sample.

Definition fields (subject : str) : gmap string (value str) :=
  list_to_map [
    ("common_name", VStr subject);
    ("fingerprint", VStr "qL8R4QIcQ_ZsRqOAbeRfcZhilN_MksRtDaErMA");
    ("not_before", VStr "2020-01-01T00:00:00Z");
    ("not_after", VStr "2030-01-01T00:00:00Z");
    ("serial_number", VInt 4096)
  ].

#[export] Instance runtime : Runtime := {|
  struct_time := unit;
  strftime := fun _ _ => "01/Jan/2020:12:00:00 +0000";
  urlparse := fun u =>
    if String.eqb u "gemini://example.org/"
    then Some {| path := "/"; query := EmptyString |}
    else if String.eqb u "gemini://["
    then None
    else Some {| path := EmptyString; query := EmptyString |};
  X509 := str;
  x509_Certificate := str;
  to_cryptography := fun c => c;
  inspect_certificate := fun c => Ok (fields c);
  inspect_certificate_raises := fun c e H =>
    eq_ind (Ok (fields c))
      (fun r => match r with
                | Ok _ => True
                | Raise e' => is_Exception e' = true
                end)
      I (Raise e) H;
  __version__ := "0.2.0";
  BAD_REQUEST := 59;
  CGI_ERROR := 42;
|}.

Definition srv : GeminiServer := {| hostname := "example.org"; listening_port := 1965 |}.

Definition peer : Address := {| host := "203.0.113.7"; port := 54321 |}.

Definition tls : Connection :=
  {| verified := None;
     get_cipher_name := VStr "TLS_AES_256_GCM_SHA384";
     get_protocol_version_name := VStr "TLSv1.3" |}.

(** An anonymous client and one presenting a certificate. *)
Definition anonymous : Transport :=
  {| getPeer := peer; getPeerCertificate := None; getHandle := tls |}.

Definition identified : Transport :=
  {| getPeer := peer; getPeerCertificate := Some "alice"; getHandle := tls |}.

Definition fresh : GeminiProtocol := connectionMade srv anonymous tt.

Definition request_line : bytes :=
  Utf8.encode "gemini://example.org/".

(** The connection once the header has been parsed. *)
Definition parsed : GeminiProtocol :=
  set_url "gemini://example.org/" (set_request request_line fresh).

Definition parsed_identified : GeminiProtocol :=
  set_url "gemini://example.org/"
    (set_request request_line (connectionMade srv identified tt)).

(** An application that answers with one page. *)
Definition hello : JetforceApplication := fun _ =>
  AppReturn [] (Yield [(20, "text/gemini")] (Str "# Hello") (StopIteration [])).

(** An application that fails after its first chunk. *)
Definition breaks_midway : JetforceApplication := fun _ =>
  AppReturn []
    (Yield [(20, "text/gemini")] (Str "hi")
       (GeneratorRaise [] (Exception "RuntimeError" "boom"))).

(** An application that answers with a status and no body. *)
Definition redirects : JetforceApplication := fun _ =>
  AppReturn [(31, "gemini://example.org/new")] (StopIteration []).


(** An application that ends the process after writing its status. *)
Definition exits : JetforceApplication := fun _ =>
  AppRaise [(20, "text/gemini")] (Exception "SystemExit" "0").

(** The text made of the lone surrogate U+D800. *)
Definition surrogate : str :=
  String "237" (String "160" (String "128" EmptyString)).

(** An application whose status cannot be encoded. *)
Definition garbled : JetforceApplication := fun _ =>
  AppReturn [(20, surrogate)] (StopIteration []).

(** An application whose only chunk is text that cannot be encoded. *)
Definition bad_chunk : JetforceApplication := fun _ =>
  AppReturn [] (Yield [] (Str surrogate) (StopIteration [])).

(** An application that sends a body without ever writing a status. *)
Definition silent : JetforceApplication := fun _ =>
  AppReturn [] (Yield [] (Bytes []) (StopIteration [])).

(** The connection once the request line has arrived. *)
Definition received : GeminiProtocol := set_request request_line fresh.



End Sample.

(** ** A runtime whose certificate inspection can fail

    [inspect_certificate] raises for the subject [mallory] and returns a
    dictionary without [not_after] for the subject [bob]. *)

Module Faulty.

Definition fields (subject : str) : gmap string (value str) :=
  list_to_map [
    ("common_name", VStr subject);
    ("fingerprint", VStr "qL8R4QIcQ_ZsRqOAbeRfcZhilN_MksRtDaErMA");
    ("not_before", VStr "2020-01-01T00:00:00Z");
    ("serial_number", VInt 4096)
  ].

#[export] Instance runtime : Runtime := {|
  struct_time := unit;
  strftime := fun _ _ => "01/Jan/2020:12:00:00 +0000";
  urlparse := fun u =>
    if String.eqb u "gemini://["
    then None
    else Some {| path := "/"; query := EmptyString |};
  X509 := str;
  x509_Certificate := str;
  to_cryptography := fun c => c;
  inspect_certificate := fun c =>
    if String.eqb c "mallory"
    then Raise (Exception "ValueError" "unsupported certificate")
    else Ok (fields c);
  inspect_certificate_raises := fun c e =>
    match String.eqb c "mallory" as b
      return ((if b
               then Raise (Exception "ValueError" "unsupported certificate")
               else Ok (fields c)) = Raise e -> is_Exception e = true)
    with
    | true => fun H =>
        eq_ind (Raise (Exception "ValueError" "unsupported certificate"))
          (fun r => match r with
                    | Ok _ => True
                    | Raise e' => is_Exception e' = true
                    end)
          eq_refl (Raise e) H
    | false => fun H =>
        eq_ind (Ok (fields c))
          (fun r => match r with
                    | Ok _ => True
                    | Raise e' => is_Exception e' = true
                    end)
          I (Raise e) H
    end;
  __version__ := "0.2.0";
  BAD_REQUEST := 59;
  CGI_ERROR := 42;
|}.

Definition srv : GeminiServer :=
  {| hostname := "example.org"; listening_port := 1965 |}.

Definition tls : Connection :=
  {| verified := Some (VBool true);
     get_cipher_name := VStr "TLS_AES_256_GCM_SHA384";
     get_protocol_version_name := VStr "TLSv1.3" |}.

Definition from (subject : str) : Transport :=
  {| getPeer := {| host := "203.0.113.7"; port := 54321 |};
     getPeerCertificate := Some subject;
     getHandle := tls |}.

Definition request_line : bytes := Utf8.encode "gemini://example.org/".

(** The connection of [subject] once the header has been parsed. *)
Definition parsed (subject : str) : GeminiProtocol :=
  set_url "gemini://example.org/"
    (set_request request_line (connectionMade srv (from subject) tt)).

(** An application that would answer, were it ever called. *)
Definition hello : JetforceApplication := fun _ =>
  AppReturn [(20, "text/gemini")] (Yield [] (Str "# Hello") (StopIteration [])).

End Faulty.

(** * Properties *)

Section Writer.

Context `{RT : Runtime}.

Implicit Types (self : GeminiProtocol) (cs : list call).

(** ** Text *)

Lemma len_nonneg (b : bytes) : 0 <= len b.
Proof. unfold len. lia. Qed.

Lemma len_app (a b : bytes) : len (a ++ b) = len a + len b.
Proof. unfold len. rewrite length_app. lia. Qed.

Lemma str_truthy_app_r (a b : str) :
  str_truthy b = true -> str_truthy (a +:+ b) = true.
Proof. destruct a; simpl; auto. Qed.

Lemma status_line_truthy (st : Z) (m : str) :
  str_truthy (status_line st m) = true.
Proof. unfold status_line. apply str_truthy_app_r. reflexivity. Qed.

Lemma encode_truthy_pos (s : str) :
  str_truthy s = true -> 0 < len (Utf8.encode s).
Proof.
  destruct s as [|a s]; simpl; [discriminate|]. intros _.
  unfold len, Utf8.encode. cbn [list_byte_of_string list_ascii_of_string map length]. lia.
Qed.

Lemma status_line_len_pos (st : Z) (m : str) :
  0 < len (Utf8.encode (status_line st m)).
Proof. apply encode_truthy_pos, status_line_truthy. Qed.

Lemma int_truthy_pos (n : Z) : 0 < n -> int_truthy n = true.
Proof. intros H. unfold int_truthy. destruct (Z.eqb_spec n 0); [lia|reflexivity]. Qed.

(** ** One call at a time *)

Lemma flush_status_pending self :
  str_truthy (response_buffer self) = true ->
  response_size self = 0 ->
  flush_status self =
    set_response_buffer EmptyString
      (emit (transport_write (Utf8.encode (response_buffer self)))
         (set_response_size (len (Utf8.encode (response_buffer self))) self)).
Proof.
  intros Hb Hz. unfold flush_status. rewrite Hb, Hz. reflexivity.
Qed.

Lemma flush_status_sent self :
  0 < response_size self ->
  flush_status self = set_response_buffer EmptyString self.
Proof.
  intros Hz. unfold flush_status. rewrite (int_truthy_pos _ Hz).
  rewrite andb_false_r. reflexivity.
Qed.

Lemma flush_status_empty self :
  response_buffer self = EmptyString ->
  flush_status self = set_response_buffer EmptyString self.
Proof. intros Hb. unfold flush_status. rewrite Hb. reflexivity. Qed.

Lemma write_body_trace data self :
  trace (write_body data self) =
  trace (flush_status self) ++ [transport_write (chunk_bytes data)].
Proof. reflexivity. Qed.

Lemma write_body_size data self :
  response_size (write_body data self) =
  response_size (flush_status self) + len (chunk_bytes data).
Proof. reflexivity. Qed.

Lemma run_calls_app cs1 cs2 self :
  run_calls (cs1 ++ cs2) self = run_calls cs2 (run_calls cs1 self).
Proof. unfold run_calls. apply fold_left_app. Qed.

Lemma run_calls_cons c cs self :
  run_calls (c :: cs) self = run_calls cs (run_call c self).
Proof. reflexivity. Qed.

Lemma bodies_app cs1 cs2 : bodies (cs1 ++ cs2) = bodies cs1 ++ bodies cs2.
Proof.
  induction cs1 as [|c cs1 IH]; [reflexivity|].
  destruct c; simpl; rewrite IH; reflexivity.
Qed.


Lemma total_len_app (l1 l2 : list bytes) :
  total_len (l1 ++ l2) = total_len l1 + total_len l2.
Proof.
  induction l1 as [|b l1 IH]; simpl; [reflexivity|]. rewrite IH. lia.
Qed.

Lemma total_len_nonneg (l : list bytes) : 0 <= total_len l.
Proof.
  induction l as [|b l IH]; simpl; [lia|]. pose proof (len_nonneg b). lia.
Qed.

(** ** The status line goes out once, and first *)

(** Calls to [write_status] alone never reach the transport. *)
Lemma write_status_only (pre : list (Z * str)) self :
  let self' :=
    run_calls (map (fun c => WriteStatus (fst c) (snd c)) pre) self in
  trace self' = trace self /\ response_size self' = response_size self.
Proof.
  revert self. induction pre as [|[st m] pre IH]; intros self; simpl.
  - split; reflexivity.
  - destruct (IH (write_status st m self)) as [Ht Hs]. simpl in Ht, Hs.
    split; [exact Ht | exact Hs].
Qed.

(** Once something has been sent, only body chunks reach the transport. *)
Lemma after_first_byte cs self :
  0 < response_size self ->
  trace (run_calls cs self) = trace self ++ map transport_write (bodies cs)
  /\ 0 < response_size (run_calls cs self).
Proof.
  revert self. induction cs as [|c cs IH]; intros self Hpos.
  - simpl. rewrite app_nil_r. split; [reflexivity | exact Hpos].
  - rewrite run_calls_cons.
    assert (Hstep : trace (run_call c self) =
                      trace self ++ map transport_write (bodies [c])
                    /\ 0 < response_size (run_call c self)).
    { destruct c as [st m | data |]; cbn [run_call bodies map].
      - rewrite app_nil_r. split; [reflexivity | exact Hpos].
      - unfold write_body. rewrite (flush_status_sent _ Hpos). simpl.
        pose proof (len_nonneg (chunk_bytes data)). split; [reflexivity | lia].
      - rewrite (flush_status_sent _ Hpos). simpl. rewrite app_nil_r.
        split; [reflexivity | exact Hpos]. }
    destruct Hstep as [Ht Hs]. destruct (IH _ Hs) as [Ht' Hs'].
    split; [|exact Hs'].
    rewrite Ht', Ht, <- app_assoc, <- map_app.
    change (c :: cs) with ([c] ++ cs). rewrite bodies_app. reflexivity.
Qed.

(** The first [write_body] after a [write_status], on a connection that has
    sent nothing yet. *)
Lemma first_body self st m data :
  response_size self = 0 ->
  let self' := write_body data (write_status st m self) in
  trace self' =
    trace self ++ [transport_write (Utf8.encode (status_line st m));
                   transport_write (chunk_bytes data)]
  /\ response_size self' =
       len (Utf8.encode (status_line st m)) + len (chunk_bytes data)
  /\ response_buffer self' = EmptyString.
Proof.
  intros Hz. cbv zeta. unfold write_body.
  rewrite flush_status_pending.
  - simpl. rewrite <- app_assoc. repeat split; reflexivity.
  - simpl. apply status_line_truthy.
  - simpl. exact Hz.
Qed.


(** ** Flushing *)



(** ** Counting bytes *)

Lemma written_app (t1 t2 : list event) :
  written (t1 ++ t2) = written t1 ++ written t2.
Proof.
  induction t1 as [|e t1 IH]; [reflexivity|].
  destruct e; simpl; rewrite IH; reflexivity.
Qed.

(** What one call adds to [response_size] is what it hands to the
    transport. *)
Lemma run_call_accounts c self :
  exists out : list bytes,
    trace (run_call c self) = trace self ++ map transport_write out
    /\ response_size (run_call c self) = response_size self + total_len out.
Proof.
  assert (Hf : forall s, exists out : list bytes,
    trace (flush_status s) = trace s ++ map transport_write out
    /\ response_size (flush_status s) = response_size s + total_len out).
  { intros s. unfold flush_status.
    destruct (str_truthy (response_buffer s)
              && negb (int_truthy (response_size s))).
    - exists [Utf8.encode (response_buffer s)]. simpl.
      split; [reflexivity | lia].
    - exists []. simpl. rewrite app_nil_r. split; [reflexivity | lia]. }
  destruct c as [st m | data |]; cbn [run_call].
  - exists []. simpl. rewrite app_nil_r. split; [reflexivity | lia].
  - destruct (Hf self) as (out & Ht & Hs).
    exists (out ++ [chunk_bytes data]).
    rewrite write_body_trace, write_body_size, Ht, Hs.
    rewrite map_app, total_len_app, <- app_assoc. simpl.
    split; [reflexivity | lia].
  - apply Hf.
Qed.

Lemma written_map_write (out : list bytes) :
  written (map transport_write out) = out.
Proof. induction out as [|b out IH]; simpl; [|rewrite IH]; reflexivity. Qed.

Lemma response_size_monotone c self :
  response_size self <= response_size (run_call c self).
Proof.
  destruct (run_call_accounts c self) as (out & _ & Hs). rewrite Hs.
  pose proof (total_len_nonneg out). lia.
Qed.




End Writer.

(** * The writer's calls as the handler makes them *)

Section Calls.

Context `{RT : Runtime}.

Implicit Types (self : GeminiProtocol) (cs : list call).

Lemma bind_Ok_result {A B} (a : A) (k : A -> result B) : Ok a ≫= k = k a.
Proof. reflexivity. Qed.

(** ** Text that can always be encoded *)

Lemma ascii_well_formed (line : bytes) :
  is_ascii line = true -> Utf8.well_formed line = true.
Proof.
  induction line as [|b line IH]; [reflexivity|].
  cbn [is_ascii forallb]. intros H. apply andb_prop in H as [Hb Hl].
  cbn [Utf8.well_formed].
  assert (Hr : Utf8.in_range 0x00 0x7F b = true).
  { unfold Utf8.in_range. apply N.ltb_lt in Hb.
    apply andb_true_intro. split; apply N.leb_le; lia. }
  rewrite Hr. apply IH, Hl.
Qed.

Lemma encode_app (a b : str) :
  Utf8.encode (a +:+ b) = Utf8.encode a ++ Utf8.encode b.
Proof.
  induction a as [|c a IH]; [reflexivity|].
  change (byte_of_ascii c :: Utf8.encode (a +:+ b) =
          byte_of_ascii c :: (Utf8.encode a ++ Utf8.encode b)).
  rewrite IH. reflexivity.
Qed.

Lemma is_ascii_app (l1 l2 : bytes) :
  is_ascii (l1 ++ l2) = is_ascii l1 && is_ascii l2.
Proof. apply forallb_app. Qed.

Lemma pretty_N_char_ascii (x : N) :
  (Byte.to_N (byte_of_ascii (pretty_N_char x)) <? 0x80)%N = true.
Proof. unfold pretty_N_char. repeat case_match; reflexivity. Qed.

Lemma pretty_N_go_ascii (x : N) (s : str) :
  is_ascii (Utf8.encode s) = true ->
  is_ascii (Utf8.encode (pretty_N_go x s)) = true.
Proof.
  revert s. induction (N.lt_wf_0 x) as [x _ IH]. intros s Hs.
  destruct (decide (x = 0%N)) as [-> | Hx].
  - rewrite pretty_N_go_0. exact Hs.
  - rewrite pretty_N_go_step by lia. apply IH.
    + apply N.div_lt; lia.
    + change (is_ascii (byte_of_ascii (pretty_N_char (x `mod` 10))
                        :: Utf8.encode s) = true).
      cbn [is_ascii forallb]. rewrite pretty_N_char_ascii. exact Hs.
Qed.

Lemma pretty_Z_ascii (n : Z) : is_ascii (Utf8.encode (pretty n)) = true.
Proof.
  assert (HN : forall x : N, is_ascii (Utf8.encode (pretty x)) = true).
  { intros x. unfold pretty, pretty_N. case_decide; [reflexivity|].
    apply pretty_N_go_ascii. reflexivity. }
  unfold pretty, pretty_Z. destruct n as [|p|p].
  - reflexivity.
  - apply HN.
  - change (is_ascii ("-"%byte :: Utf8.encode (pretty (Npos p))) = true).
    cbn [is_ascii forallb]. apply (HN (Npos p)).
Qed.

(** A status line whose meta is ASCII can be encoded. *)
Lemma status_line_encodable (st : Z) (m : str) :
  is_ascii (Utf8.encode m) = true ->
  Utf8.encodable (status_line st m) = true.
Proof.
  intros Hm. apply ascii_well_formed. unfold status_line.
  rewrite !encode_app, !is_ascii_app, pretty_Z_ascii, Hm. reflexivity.
Qed.

(** ** Calls that return and calls that raise *)

Lemma try_flush_status_cases self :
  try_flush_status self =
    if str_truthy (response_buffer self)
       && negb (int_truthy (response_size self))
       && negb (Utf8.encodable (response_buffer self))
    then Raise (UnicodeEncodeError "surrogates not allowed")
    else Ok (flush_status self).
Proof.
  unfold try_flush_status, flush_status, str_encode.
  destruct (str_truthy (response_buffer self)
            && negb (int_truthy (response_size self))); [|reflexivity].
  destruct (Utf8.encodable (response_buffer self)); reflexivity.
Qed.

Lemma try_flush_status_ok self s :
  try_flush_status self = Ok s -> s = flush_status self.
Proof.
  rewrite try_flush_status_cases.
  destruct (_ && _); [discriminate | intros [= <-]; reflexivity].
Qed.

Lemma try_flush_status_raise self e :
  try_flush_status self = Raise e ->
  e = UnicodeEncodeError "surrogates not allowed"
  /\ response_size self = 0
  /\ Utf8.encodable (response_buffer self) = false.
Proof.
  rewrite try_flush_status_cases.
  destruct (str_truthy (response_buffer self)); [|discriminate].
  destruct (Z.eqb_spec (response_size self) 0) as [Hz | Hz];
    unfold int_truthy;
    [rewrite Hz | rewrite (proj2 (Z.eqb_neq _ _) Hz); discriminate].
  destruct (Utf8.encodable (response_buffer self)); [discriminate|].
  intros [= <-]. repeat split.
Qed.

Lemma try_flush_status_sent self :
  0 < response_size self -> try_flush_status self = Ok (flush_status self).
Proof.
  intros Hz. rewrite try_flush_status_cases, (int_truthy_pos _ Hz).
  rewrite andb_false_r. reflexivity.
Qed.

Lemma try_flush_status_empty self :
  response_buffer self = EmptyString ->
  try_flush_status self = Ok (flush_status self).
Proof. intros Hb. rewrite try_flush_status_cases, Hb. reflexivity. Qed.

Lemma try_flush_status_encodable self :
  Utf8.encodable (response_buffer self) = true ->
  try_flush_status self = Ok (flush_status self).
Proof.
  intros He. rewrite try_flush_status_cases, He, andb_false_r. reflexivity.
Qed.

Lemma try_write_body_cases data self :
  try_write_body data self =
    if chunk_encodable data then
      match try_flush_status self with
      | Ok _ => Ok (write_body data self)
      | Raise e => Raise e
      end
    else Raise (UnicodeEncodeError "surrogates not allowed").
Proof.
  unfold try_write_body.
  assert (Hd : match data with Str s => str_encode s | Bytes b => Ok b end =
               if chunk_encodable data then Ok (chunk_bytes data)
               else Raise (UnicodeEncodeError "surrogates not allowed")).
  { destruct data as [t | b]; [|reflexivity].
    unfold str_encode, chunk_encodable. destruct (Utf8.encodable t); reflexivity. }
  rewrite Hd. destruct (chunk_encodable data); [|reflexivity].
  destruct (try_flush_status self) as [s | e] eqn:Hf; [|reflexivity].
  apply try_flush_status_ok in Hf. subst s. reflexivity.
Qed.

Lemma try_write_body_ok data self s :
  try_write_body data self = Ok s -> s = write_body data self.
Proof.
  rewrite try_write_body_cases. destruct (chunk_encodable data); [|discriminate].
  destruct (try_flush_status self); [intros [= <-]; reflexivity | discriminate].
Qed.

Lemma try_write_body_raise data self e :
  try_write_body data self = Raise e ->
  e = UnicodeEncodeError "surrogates not allowed".
Proof.
  rewrite try_write_body_cases.
  destruct (chunk_encodable data); [|intros [= <-]; reflexivity].
  destruct (try_flush_status self) as [s | e'] eqn:Hf; [discriminate|].
  intros [= <-]. apply (try_flush_status_raise _ _ Hf).
Qed.

Lemma try_run_call_ok c self s :
  try_run_call c self = Ok s -> s = run_call c self.
Proof.
  destruct c as [st m | data |]; cbn [try_run_call run_call].
  - intros [= <-]. reflexivity.
  - apply try_write_body_ok.
  - apply try_flush_status_ok.
Qed.

Lemma try_run_calls_ok cs self s :
  try_run_calls cs self = Ok s -> s = run_calls cs self.
Proof.
  revert self. induction cs as [|c cs IH]; intros self; cbn [try_run_calls].
  - intros [= <-]. reflexivity.
  - destruct (try_run_call c self) as [s1 | e] eqn:Hc; [|discriminate].
    rewrite bind_Ok_result. intros H. apply try_run_call_ok in Hc. subst s1.
    rewrite run_calls_cons. apply IH, H.
Qed.

Lemma try_run_calls_app cs1 cs2 self s :
  try_run_calls cs1 self = Ok s ->
  try_run_calls (cs1 ++ cs2) self = try_run_calls cs2 s.
Proof.
  revert self. induction cs1 as [|c cs1 IH]; intros self; cbn [try_run_calls List.app].
  - intros [= <-]. reflexivity.
  - destruct (try_run_call c self) as [s1 | e]; [|discriminate].
    rewrite !bind_Ok_result. apply IH.
Qed.

Lemma try_run_calls_statuses (calls : list (Z * str)) self :
  try_run_calls (status_calls calls) self =
  Ok (run_calls (status_calls calls) self).
Proof.
  revert self. induction calls as [|c calls IH]; intros self; [reflexivity|].
  cbn [status_calls map try_run_calls try_run_call]. rewrite bind_Ok_result.
  apply IH.
Qed.

(** Once something has been sent, encodable chunks are all it takes for
    the calls to return. *)
Lemma try_run_calls_after_first_byte cs self :
  0 < response_size self ->
  chunks_encodable cs = true ->
  try_run_calls cs self = Ok (run_calls cs self).
Proof.
  revert self. induction cs as [|c cs IH]; intros self Hpos He; [reflexivity|].
  cbn [chunks_encodable forallb] in He. apply andb_prop in He as [Hc He].
  cbn [try_run_calls]. rewrite run_calls_cons.
  assert (Hstep : try_run_call c self = Ok (run_call c self)).
  { destruct c as [st m | data |]; cbn [try_run_call run_call].
    - reflexivity.
    - rewrite try_write_body_cases, Hc, (try_flush_status_sent _ Hpos).
      reflexivity.
    - apply try_flush_status_sent, Hpos. }
  rewrite Hstep, bind_Ok_result. apply IH; [|exact He].
  pose proof (response_size_monotone c self). lia.
Qed.

(** With no status ever written, the same. *)
Lemma try_run_calls_without_status cs self :
  response_buffer self = EmptyString ->
  last_status cs None = None ->
  chunks_encodable cs = true ->
  try_run_calls cs self = Ok (run_calls cs self).
Proof.
  revert self. induction cs as [|c cs IH]; intros self Hb Hl He; [reflexivity|].
  cbn [chunks_encodable forallb] in He. apply andb_prop in He as [Hc He].
  cbn [try_run_calls]. rewrite run_calls_cons.
  destruct c as [st m | data |]; cbn [last_status] in Hl;
    cbn [try_run_call run_call].
  - exfalso. revert Hl. clear. generalize (st, m). induction cs as [|c cs IH];
      intros x; [discriminate|]. destruct c; simpl; apply IH.
  - rewrite try_write_body_cases, Hc, (try_flush_status_empty _ Hb),
      bind_Ok_result.
    apply IH; [reflexivity | exact Hl | exact He].
  - rewrite (try_flush_status_empty _ Hb), bind_Ok_result.
    apply IH; [reflexivity | exact Hl | exact He].
Qed.

End Calls.

Section Handler.

Context `{RT : Runtime}.

Implicit Types (self : GeminiProtocol) (app : JetforceApplication).

(** ** What the writer leaves alone *)

Lemma closes_app (t1 t2 : list event) :
  closes (t1 ++ t2) = (closes t1 + closes t2)%nat.
Proof.
  induction t1 as [|e t1 IH]; [reflexivity|].
  destruct e; simpl; rewrite IH; reflexivity.
Qed.

Lemma access_lines_app (t1 t2 : list event) :
  access_lines (t1 ++ t2) = access_lines t1 ++ access_lines t2.
Proof.
  induction t1 as [|e t1 IH]; [reflexivity|].
  destruct e as [| |[|]]; simpl; rewrite IH; reflexivity.
Qed.

Lemma flush_status_frame self :
  url (flush_status self) = url self
  /\ status (flush_status self) = status self
  /\ meta (flush_status self) = meta self
  /\ closes (trace (flush_status self)) = closes (trace self)
  /\ access_lines (trace (flush_status self)) = access_lines (trace self).
Proof.
  unfold flush_status.
  destruct (str_truthy (response_buffer self)
            && negb (int_truthy (response_size self))); simpl.
  - rewrite closes_app, access_lines_app. simpl.
    rewrite Nat.add_0_r, app_nil_r. repeat split; reflexivity.
  - repeat split; reflexivity.
Qed.

Lemma write_body_frame data self :
  url (write_body data self) = url self
  /\ status (write_body data self) = status self
  /\ meta (write_body data self) = meta self
  /\ closes (trace (write_body data self)) = closes (trace self)
  /\ access_lines (trace (write_body data self)) = access_lines (trace self).
Proof.
  destruct (flush_status_frame self) as (Hu & Hs & Hm & Hc & Ha).
  rewrite write_body_trace, closes_app, access_lines_app. simpl.
  rewrite Nat.add_0_r, app_nil_r.
  change (url (write_body data self)) with (url (flush_status self)).
  change (status (write_body data self)) with (status (flush_status self)).
  change (meta (write_body data self)) with (meta (flush_status self)).
  repeat split; assumption.
Qed.








(** The two ways the [finally] clause can go. *)
Lemma finally_cases (in_flight : option exn) self :
  match try_flush_status self with
  | Ok _ =>
      finally in_flight self =
        (emit transport_loseConnection (log_request (flush_status self)),
         in_flight)
  | Raise e => finally in_flight self = (self, Some e)
  end.
Proof.
  unfold finally. destruct (try_flush_status self) as [s | e] eqn:Hf;
    [|reflexivity].
  apply try_flush_status_ok in Hf. subst s. reflexivity.
Qed.

Lemma parse_header_ok self parsed :
  parse_header self = Ok parsed ->
  exists text, parsed = set_url text self.
Proof.
  unfold parse_header. destruct (request self) as [line|]; [|discriminate].
  destruct (len line >? 1024); [discriminate|].
  destruct (Utf8.decode line) as [text|]; [|discriminate].
  intros [= <-]. exists text. reflexivity.
Qed.

(** What [parse_header] raises is an ordinary error. *)
Lemma parse_header_raises_Exception self e :
  parse_header self = Raise e -> is_Exception e = true.
Proof.
  unfold parse_header. destruct (request self) as [line|];
    [|intros [= <-]; reflexivity].
  destruct (len line >? 1024); [intros [= <-]; reflexivity|].
  destruct (Utf8.decode line); [discriminate | intros [= <-]; reflexivity].
Qed.

(** The bad-request status line can always be flushed. *)
Lemma bad_request_flush self :
  let s := write_status BAD_REQUEST "Malformed request" self in
  try_flush_status s = Ok (flush_status s).
Proof.
  cbv zeta. apply try_flush_status_encodable.
  apply status_line_encodable. reflexivity.
Qed.

(** The first [except] clause: what a request that does not parse gets. *)
Lemma malformed_request_path app self e :
  parse_header self = Raise e ->
  response_size self = 0 ->
  snd (_handle_request_noblock app self) = Some e
  /\ trace (fst (_handle_request_noblock app self)) =
       trace self
       ++ [server_log_message (format_exc e);
           transport_write
             (Utf8.encode (status_line BAD_REQUEST "Malformed request"));
           transport_loseConnection].
Proof.
  intros Hp Hz. unfold _handle_request_noblock.
  rewrite Hp, (parse_header_raises_Exception _ _ Hp). cbv zeta.
  rewrite bad_request_flush.
  rewrite flush_status_pending.
  - split; [reflexivity|]. cbn [fst trace emit set_response_buffer
      set_response_size write_status set_meta set_status].
    rewrite <- !app_assoc. reflexivity.
  - apply status_line_truthy.
  - exact Hz.
Qed.

Lemma parse_header_raises self line e :
  request self = Some line ->
  parse_header self = Raise e ->
  (1024 < len line \/ Utf8.decode line = None)
  /\ (exn_class e = "ValueError" \/ exn_class e = "UnicodeDecodeError").
Proof.
  unfold parse_header. intros ->.
  destruct (Z.gtb_spec (len line) 1024) as [Hlong | Hshort].
  - intros [= <-]. split; [left; lia | left; reflexivity].
  - destruct (Utf8.decode line) as [text|]; [discriminate|].
    intros [= <-]. split; [right; reflexivity | right; reflexivity].
Qed.

Lemma decode_encode (line : bytes) (text : str) :
  Utf8.decode line = Some text -> Utf8.encode text = line.
Proof.
  unfold Utf8.decode, Utf8.encode.
  destruct (Utf8.well_formed line); [|discriminate].
  intros [= <-]. apply list_byte_of_string_of_list_byte.
Qed.


(** C4. The request parser accepts a request line exactly when it is at
    most 1024 bytes long and is well-formed UTF-8; the URL it stores is the
    decoded text, whose encoding is the request line again.  Otherwise it
    raises ([ValueError] for the length, [UnicodeDecodeError] for the
    decoding); the handler answers such a request with the bad-request
    status line and writes nothing else to the transport, whatever the
    application is. *)
Theorem parse_header_accepts_exactly srv tr now line :
  let self := set_request line (connectionMade srv tr now) in
  (len line <= 1024
   /\ exists text,
        Utf8.decode line = Some text
        /\ Utf8.encode text = line
        /\ parse_header self = Ok (set_url text self)
        /\ url (set_url text self) = Some text)
  \/ ((1024 < len line \/ Utf8.decode line = None)
      /\ exists e,
           parse_header self = Raise e
           /\ (exn_class e = "ValueError"
               \/ exn_class e = "UnicodeDecodeError")
           /\ forall app,
                let outcome :=
                  lineReceived app line (connectionMade srv tr now) in
                snd outcome = Some e
                /\ written (trace (fst outcome)) =
                     [Utf8.encode
                        (status_line BAD_REQUEST "Malformed request")]).
Proof.
  intros self.
  assert (Hcases :
    (exists text, Utf8.decode line = Some text /\ len line <= 1024
                  /\ parse_header self = Ok (set_url text self))
    \/ exists e, parse_header self = Raise e).
  { unfold parse_header. cbn [request self set_request].
    destruct (Z.gtb_spec (len line) 1024) as [Hlong | Hshort];
      [right; eexists; reflexivity|].
    destruct (Utf8.decode line) as [text|];
      [left; exists text; auto | right; eexists; reflexivity]. }
  destruct Hcases as [(text & Hd & Hlen & Hp) | (e & Hp)].
  - left. split; [exact Hlen|]. exists text.
    split; [exact Hd|]. split; [apply decode_encode, Hd|].
    split; [exact Hp | reflexivity].
  - right. destruct (parse_header_raises self line e eq_refl Hp) as [Hwhy Hcls].
    split; [exact Hwhy|]. exists e. split; [exact Hp|]. split; [exact Hcls|].
    intros app outcome.
    destruct (malformed_request_path app self e Hp eq_refl) as [Hs Ht].
    unfold outcome, lineReceived. fold self. rewrite Ht.
    split; [exact Hs | reflexivity].
Qed.

(** ** Status and meta *)

Lemma status_meta_run_calls cs self (acc : option (Z * str))
    (dflt : option Z * option str) :
  (status self, meta self) =
    match acc with Some (st, m) => (Some st, Some m) | None => dflt end ->
  (status (run_calls cs self), meta (run_calls cs self)) =
    match last_status cs acc with
    | Some (st, m) => (Some st, Some m)
    | None => dflt
    end.
Proof.
  revert self acc. induction cs as [|c cs IH]; intros self acc H.
  - exact H.
  - rewrite run_calls_cons. destruct c as [st m | data |]; cbn [last_status].
    + apply IH. reflexivity.
    + apply IH. destruct (write_body_frame data self) as (_ & Hs & Hm & _).
      cbn [run_call]. rewrite Hs, Hm. exact H.
    + apply IH. destruct (flush_status_frame self) as (_ & Hs & Hm & _).
      cbn [run_call]. rewrite Hs, Hm. exact H.
Qed.

(** C6 (amended). Every [write_status] call overwrites [status] and
    [meta], also after the status line has been flushed: after any
    sequence of writer calls the two fields hold the arguments of the last
    [write_status] call (and are untouched when there was none), and the
    access line is formatted from the fields as they are when the logger
    runs. *)
Theorem status_meta_follow_write_status cs self :
  (forall st m s,
     status (write_status st m s) = Some st
     /\ meta (write_status st m s) = Some m)
  /\ (status (run_calls cs self), meta (run_calls cs self)) =
       match last_status cs None with
       | Some (st, m) => (Some st, Some m)
       | None => (status self, meta self)
       end
  /\ access_lines (trace (log_request self)) =
       access_lines (trace self)
       ++ match url self, status self, meta self with
          | Some url_, Some status_, Some meta_ =>
              [format_message (host (client_addr self))
                 (strftime TIMESTAMP_FORMAT (connected_timestamp self))
                 url_ status_ meta_ (response_size self)]
          | _, _, _ => []
          end.
Proof.
  split; [intros st m s; split; reflexivity|].
  split; [apply status_meta_run_calls; reflexivity|].
  unfold log_request.
  destruct (url self), (status self), (meta self);
    cbn [trace emit]; rewrite ?access_lines_app, ?app_nil_r; reflexivity.
Qed.

End Handler.

Section Environ.

Context `{RT : Runtime}.

Implicit Types (self : GeminiProtocol)
  (environ : gmap string (value x509_Certificate)).

Lemma bind_Ok {A B} (a : A) (k : A -> result B) : Ok a ≫= k = k a.
Proof. reflexivity. Qed.

(** Case analysis on a successful [build_environ]: one goal for a peer
    with a certificate, one for a peer without; in both the dictionary is
    replaced by the literal the method built. *)
Ltac build_environ_cases self :=
  unfold build_environ;
  let u := fresh "url_" in
  let cert := fresh "cert" in
  let cert_data := fresh "cert_data" in
  let parts := fresh "url_parts" in
  destruct (url self) as [u|]; [|discriminate];
  destruct (urlparse u) as [parts|]; [|discriminate];
  rewrite bind_Ok;
  destruct (getPeerCertificate (transport self)) as [cert|];
  [ destruct (inspect_certificate (to_cryptography cert)) as [cert_data|];
    [|discriminate];
    rewrite bind_Ok; unfold getitem;
    repeat match goal with
      | |- context [cert_data !! ?k] =>
          destruct (cert_data !! k); [rewrite bind_Ok | discriminate]
      end;
    intros [= <-]
  | intros [= <-] ].

(** C5. In a context that was built (the builder returned), a peer
    certificate on the transport means that all nine TLS-identity keys are
    present and [client_certificate] holds the certificate object; no peer
    certificate means that none of the nine keys is present and
    [client_certificate] is [None]. *)
Theorem tls_identity_block_all_or_nothing self environ :
  build_environ self = Ok environ ->
  match getPeerCertificate (transport self) with
  | Some cert =>
      Forall (fun key => is_Some (environ !! key)) tls_keys
      /\ environ !! "client_certificate" =
           Some (VCert (to_cryptography cert))
  | None =>
      Forall (fun key => environ !! key = None) tls_keys
      /\ environ !! "client_certificate" = Some VNone
  end.
Proof.
  build_environ_cases self.
  - split; [|vm_compute; reflexivity].
    unfold tls_keys. repeat constructor; vm_compute; eexists; reflexivity.
  - split; [|vm_compute; reflexivity].
    unfold tls_keys. repeat constructor.
Qed.

(** C9. In a context that was built, [REMOTE_ADDR] and [REMOTE_HOST] hold
    the same value: the host of the peer address. *)
Theorem remote_addr_equals_remote_host self environ :
  build_environ self = Ok environ ->
  environ !! "REMOTE_ADDR" = environ !! "REMOTE_HOST"
  /\ environ !! "REMOTE_ADDR" = Some (VStr (host (client_addr self)))
  /\ environ !! "REMOTE_HOST" = Some (VStr (host (client_addr self))).
Proof.
  build_environ_cases self; repeat split; vm_compute; reflexivity.
Qed.

(** [SERVER_PORT] is computed from the peer address alone. *)
Lemma server_port_entry self environ :
  build_environ self = Ok environ ->
  environ !! "SERVER_PORT" = Some (VStr (pretty (port (client_addr self)))).
Proof.
  build_environ_cases self; vm_compute; reflexivity.
Qed.

End Environ.

(** * Further properties of the writer *)

Section WriterInvariants.

Context `{RT : Runtime}.

Implicit Types (self : GeminiProtocol) (cs : list call).


Lemma last_status_some cs (x : Z * str) : last_status cs (Some x) <> None.
Proof.
  revert x. induction cs as [|c cs IH]; intros x; [discriminate|].
  destruct c; simpl; apply IH.
Qed.

Lemma run_calls_without_status cs self :
  response_buffer self = EmptyString ->
  last_status cs None = None ->
  trace (run_calls cs self) = trace self ++ map transport_write (bodies cs)
  /\ response_buffer (run_calls cs self) = EmptyString.
Proof.
  revert self. induction cs as [|c cs IH]; intros self Hb Hl.
  - simpl. rewrite app_nil_r. split; [reflexivity | exact Hb].
  - rewrite run_calls_cons. destruct c as [st m | data |]; cbn [last_status] in Hl.
    + destruct (last_status_some cs _ Hl).
    + destruct (IH (run_call (WriteBody data) self) eq_refl Hl) as [Ht Hb'].
      split; [|exact Hb']. rewrite Ht. cbn [run_call bodies map].
      rewrite write_body_trace, (flush_status_empty _ Hb), <- app_assoc.
      reflexivity.
    + destruct (IH (run_call FlushStatus self) eq_refl Hl) as [Ht Hb'].
      split; [|exact Hb']. rewrite Ht. cbn [run_call bodies].
      rewrite (flush_status_empty _ Hb). reflexivity.
Qed.



End WriterInvariants.

(** * Further properties of the handler *)

Section HandlerOutcomes.

Context `{RT : Runtime}.

Implicit Types (self : GeminiProtocol) (app : JetforceApplication).

Lemma same_connection_refl self : same_connection self self.
Proof. repeat split. Qed.

Lemma same_connection_trans (a b c : GeminiProtocol) :
  same_connection a b -> same_connection b c -> same_connection a c.
Proof.
  intros (H1 & H2 & H3 & H4 & H5 & H6) (K1 & K2 & K3 & K4 & K5 & K6).
  unfold same_connection.
  rewrite K1, K2, K3, K4, K5, K6. repeat split; assumption.
Qed.

Lemma same_connection_flush_status self :
  same_connection self (flush_status self).
Proof.
  unfold flush_status.
  destruct (str_truthy (response_buffer self)
            && negb (int_truthy (response_size self))); repeat split.
Qed.

Lemma same_connection_run_call c self :
  same_connection self (run_call c self).
Proof.
  destruct c as [st m | data |]; cbn [run_call].
  - repeat split.
  - apply (same_connection_trans _ (flush_status self));
      [apply same_connection_flush_status | repeat split].
  - apply same_connection_flush_status.
Qed.

Lemma same_connection_run_calls cs self :
  same_connection self (run_calls cs self).
Proof.
  revert self. induction cs as [|c cs IH]; intros self.
  - apply same_connection_refl.
  - rewrite run_calls_cons.
    apply (same_connection_trans _ (run_call c self));
      [apply same_connection_run_call | apply IH].
Qed.

(** Writer calls only ever add writes to the trace, and [response_size]
    grows by what they write. *)
Lemma run_calls_accounts cs self :
  exists out : list bytes,
    trace (run_calls cs self) = trace self ++ map transport_write out
    /\ response_size (run_calls cs self) = response_size self + total_len out.
Proof.
  revert self. induction cs as [|c cs IH]; intros self.
  - exists []. simpl. rewrite app_nil_r. split; [reflexivity | lia].
  - rewrite run_calls_cons.
    destruct (run_call_accounts c self) as (o1 & Ht1 & Hs1).
    destruct (IH (run_call c self)) as (o2 & Ht2 & Hs2).
    exists (o1 ++ o2).
    rewrite Ht2, Hs2, Ht1, Hs1, map_app, total_len_app, <- app_assoc.
    split; [reflexivity | lia].
Qed.

(** ** The response phase in terms of writer calls *)

Lemma write_statuses_run_calls calls self :
  write_statuses calls self = run_calls (status_calls calls) self.
Proof.
  revert self. induction calls as [|c calls IH]; intros self; [reflexivity|].
  simpl. apply IH.
Qed.

(** Whatever the application does, the state it leaves is the state after
    some writer calls that returned. *)
Lemma pull_chunks_prefix g self :
  exists cs, fst (pull_chunks g self) = run_calls cs self.
Proof.
  revert self. induction g as [calls | calls e | calls data rest IH];
    intros self; cbn [pull_chunks].
  - exists (status_calls calls). apply write_statuses_run_calls.
  - exists (status_calls calls). apply write_statuses_run_calls.
  - destruct (try_write_body data (write_statuses calls self))
      as [s | e] eqn:Hw.
    + apply try_write_body_ok in Hw. subst s.
      destruct (IH (write_body data (write_statuses calls self))) as [cs Hcs].
      exists (status_calls calls ++ WriteBody data :: cs).
      rewrite Hcs, run_calls_app, run_calls_cons, write_statuses_run_calls.
      reflexivity.
    + exists (status_calls calls). apply write_statuses_run_calls.
Qed.

Lemma dispatch_prefix app self :
  exists cs, fst (dispatch app self) = run_calls cs self.
Proof.
  unfold dispatch. destruct (build_environ self) as [environ | e].
  - destruct (app environ) as [calls g | calls e].
    + destruct (pull_chunks_prefix g (write_statuses calls self)) as [cs Hcs].
      exists (status_calls calls ++ cs).
      rewrite Hcs, run_calls_app, write_statuses_run_calls. reflexivity.
    + exists (status_calls calls). apply write_statuses_run_calls.
  - exists []. reflexivity.
Qed.

(** So it only adds writes to the trace, [response_size] grows by what it
    writes, and the connection stays the same. *)
Lemma dispatch_effect app self :
  exists out : list bytes,
    trace (fst (dispatch app self)) = trace self ++ map transport_write out
    /\ response_size (fst (dispatch app self)) =
         response_size self + total_len out
    /\ same_connection self (fst (dispatch app self)).
Proof.
  destruct (dispatch_prefix app self) as [cs ->].
  destruct (run_calls_accounts cs self) as (out & Ht & Hs).
  exists out. split; [exact Ht|]. split; [exact Hs|].
  apply same_connection_run_calls.
Qed.

(** When all the calls of the application return, the response phase is
    those calls. *)
Lemma pull_chunks_returns g self s :
  try_run_calls (generator_calls g) self = Ok s ->
  pull_chunks g self = (s, generator_error g).
Proof.
  revert self. induction g as [calls | calls e | calls data rest IH];
    intros self; cbn [pull_chunks generator_calls generator_error].
  - rewrite try_run_calls_statuses, write_statuses_run_calls.
    intros [= <-]. reflexivity.
  - rewrite try_run_calls_statuses, write_statuses_run_calls.
    intros [= <-]. reflexivity.
  - rewrite (try_run_calls_app _ _ _ _ (try_run_calls_statuses calls self)).
    cbn [try_run_calls try_run_call]. rewrite write_statuses_run_calls.
    destruct (try_write_body data (run_calls (status_calls calls) self))
      as [s1 | e]; [|discriminate].
    rewrite bind_Ok_result. apply IH.
Qed.

Lemma dispatch_returns app self environ s :
  build_environ self = Ok environ ->
  try_run_calls (outcome_calls (app environ)) self = Ok s ->
  dispatch app self = (s, outcome_error (app environ)).
Proof.
  intros Hb. unfold dispatch. rewrite Hb.
  destruct (app environ) as [calls g | calls e];
    cbn [outcome_calls outcome_error].
  - rewrite (try_run_calls_app _ _ _ _ (try_run_calls_statuses calls self)).
    rewrite write_statuses_run_calls. apply pull_chunks_returns.
  - rewrite try_run_calls_statuses, write_statuses_run_calls.
    intros [= <-]. reflexivity.
Qed.

(** What [build_environ] raises is an ordinary error. *)
Lemma build_environ_raises_Exception self e :
  build_environ self = Raise e -> is_Exception e = true.
Proof.
  unfold build_environ.
  destruct (url self) as [u|]; [|intros [= <-]; reflexivity].
  destruct (urlparse u) as [parts|]; [|intros [= <-]; reflexivity].
  rewrite bind_Ok_result.
  destruct (getPeerCertificate (transport self)) as [cert|]; [|discriminate].
  destruct (inspect_certificate (to_cryptography cert)) as [cert_data | e']
    eqn:Hi; [|intros [= <-]; apply (inspect_certificate_raises _ _ Hi)].
  rewrite bind_Ok_result. unfold getitem.
  repeat match goal with
    | |- context [cert_data !! ?k] =>
        destruct (cert_data !! k);
        [rewrite bind_Ok_result | intros [= <-]; reflexivity]
    end.
  discriminate.
Qed.



Lemma closes_writes (out : list bytes) :
  closes (map transport_write out) = 0%nat.
Proof. induction out as [|b out IH]; [reflexivity | exact IH]. Qed.

Lemma access_lines_writes (out : list bytes) :
  access_lines (map transport_write out) = [].
Proof. induction out as [|b out IH]; [reflexivity | exact IH]. Qed.

(** ** Failures *)

(** The [CGI_ERROR] status line can always be flushed. *)
Lemma cgi_error_flush self e :
  try_flush_status (on_error e self) = Ok (flush_status (on_error e self)).
Proof.
  apply try_flush_status_encodable.
  apply status_line_encodable. reflexivity.
Qed.

(** The error clause followed by the [finally] clause, when nothing has
    been sent yet. *)
Lemma error_before_first_byte self e text :
  url self = Some text ->
  response_size self = 0 ->
  snd (finally None (on_error e self)) = None
  /\ trace (fst (finally None (on_error e self))) =
    trace self
    ++ [server_log_message (format_exc e);
        transport_write
          (Utf8.encode (status_line CGI_ERROR "An unexpected error occurred"));
        server_log_message
          (access_line
             (format_message (host (client_addr self))
                (strftime TIMESTAMP_FORMAT (connected_timestamp self))
                text CGI_ERROR "An unexpected error occurred"
                (len (Utf8.encode
                        (status_line CGI_ERROR
                           "An unexpected error occurred")))));
        transport_loseConnection].
Proof.
  intros Hu Hz. unfold finally. rewrite cgi_error_flush.
  split; [reflexivity|].
  rewrite flush_status_pending; [|apply status_line_truthy | exact Hz].
  unfold log_request.
  cbn [fst url status meta trace emit set_response_buffer set_response_size
       on_error write_status set_meta set_status response_buffer
       response_size client_addr connected_timestamp].
  rewrite Hu.
  cbn [trace emit set_response_buffer set_response_size on_error
       write_status set_meta set_status].
  rewrite <- !app_assoc. reflexivity.
Qed.




(** X7. When the environ cannot be built the application is never called:
    for every application the handler does the same thing, which is to log
    the traceback, send the [CGI_ERROR] status line, write the access line
    and close; the coroutine does not raise. *)
Theorem build_environ_failure_skips_application app self parsed e :
  parse_header self = Ok parsed ->
  build_environ parsed = Raise e ->
  response_size self = 0 ->
  exists text,
    url parsed = Some text
    /\ _handle_request_noblock app self = finally None (on_error e parsed)
    /\ snd (finally None (on_error e parsed)) = None
    /\ trace (fst (finally None (on_error e parsed))) =
         trace self
         ++ [server_log_message (format_exc e);
             transport_write
               (Utf8.encode
                  (status_line CGI_ERROR "An unexpected error occurred"));
             server_log_message
               (access_line
                  (format_message (host (client_addr self))
                     (strftime TIMESTAMP_FORMAT (connected_timestamp self))
                     text CGI_ERROR "An unexpected error occurred"
                     (len (Utf8.encode
                             (status_line CGI_ERROR
                                "An unexpected error occurred")))));
             transport_loseConnection].
Proof.
  intros Hp Hb Hz. destruct (parse_header_ok _ _ Hp) as [text ->].
  exists text. split; [reflexivity|].
  split.
  - unfold _handle_request_noblock, dispatch.
    rewrite Hp, Hb, (build_environ_raises_Exception _ _ Hb). reflexivity.
  - destruct (error_before_first_byte (set_url text self) e text eq_refl Hz)
      as [Hs Ht].
    split; [exact Hs | exact Ht].
Qed.

(** ** The whole trace of one request *)

(** A request that parses.  Either the final flush returns, and the trace
    is: writes of the application, the traceback if the [except] clause
    ran, what the final flush writes, the access line if [status] and
    [meta] are set, the close; or the final flush raises, and the trace
    stops before it. *)
Lemma parsed_request_trace app self parsed :
  parse_header self = Ok parsed ->
  exists (out1 out2 : list bytes) (text : str),
    let outcome := _handle_request_noblock app self in
    let final := fst outcome in
    let raised := snd (dispatch app parsed) in
    let logged :=
      match raised with
      | Some e =>
          if is_Exception e then [server_log_message (format_exc e)] else []
      | None => []
      end in
    url parsed = Some text
    /\ same_connection parsed final
    /\ ((trace final =
           trace self ++ map transport_write out1 ++ logged
           ++ map transport_write out2
           ++ match status final, meta final with
              | Some st, Some m =>
                  [server_log_message
                     (access_line
                        (format_message (host (client_addr self))
                           (strftime TIMESTAMP_FORMAT
                              (connected_timestamp self))
                           text st m (response_size final)))]
              | _, _ => []
              end
           ++ [transport_loseConnection]
         /\ response_size final =
              response_size self + total_len out1 + total_len out2
         /\ snd outcome =
              match raised with
              | Some e => if is_Exception e then None else Some e
              | None => None
              end)
        \/ (trace final = trace self ++ map transport_write out1 ++ logged
            /\ snd outcome =
                 Some (UnicodeEncodeError "surrogates not allowed"))).
Proof.
  intros Hp. destruct (parse_header_ok _ _ Hp) as [text ->].
  destruct (dispatch_effect app (set_url text self))
    as (out1 & Ht1 & Hs1 & Hsame1).
  unfold _handle_request_noblock. rewrite Hp.
  destruct (dispatch app (set_url text self)) as [s raised].
  cbn [fst snd] in *.
  set (logged := match raised with
                 | Some e =>
                     if is_Exception e
                     then [server_log_message (format_exc e)] else []
                 | None => []
                 end).
  set (before := match raised with
                 | Some e => if is_Exception e then on_error e s else s
                 | None => s
                 end).
  set (in_flight := match raised with
                    | Some e => if is_Exception e then None else Some e
                    | None => None
                    end).
  assert (Hfin : match raised with
                 | Some e =>
                     if is_Exception e then finally None (on_error e s)
                     else finally (Some e) s
                 | None => finally None s
                 end = finally in_flight before).
  { unfold before, in_flight.
    destruct raised as [e|]; [destruct (is_Exception e)|]; reflexivity. }
  rewrite Hfin. clear Hfin.
  assert (Hbefore :
    trace before = trace s ++ logged
    /\ response_size before = response_size s
    /\ same_connection s before).
  { unfold before, logged. destruct raised as [e|].
    - destruct (is_Exception e).
      + repeat split.
      + rewrite app_nil_r. repeat split.
    - rewrite app_nil_r. repeat split. }
  destruct Hbefore as (Htb & Hsb & Hsameb). clearbody before logged in_flight.
  pose proof (same_connection_trans _ _ _ Hsame1 Hsameb) as Hsame0.
  pose proof (finally_cases in_flight before) as Hc.
  destruct (try_flush_status before) as [flushed | e'] eqn:Hf.
  - rewrite Hc. clear Hc Hf flushed.
    destruct (run_call_accounts FlushStatus before) as (out2 & Ht2 & Hs2).
    cbn [run_call] in Ht2, Hs2.
    pose proof (same_connection_trans _ _ _ Hsame0
                  (same_connection_flush_status before)) as Hsame.
    exists out1, out2, text. cbv zeta. split; [reflexivity|].
    unfold log_request.
    set (f := flush_status before) in *. clearbody f.
    destruct Hsame as (K1 & K2 & K3 & K4 & K5 & K6).
    cbn [url server transport client_addr connected_timestamp request
         set_url] in K1, K2, K3, K4, K5, K6.
    assert (Htf : trace f =
      trace self ++ map transport_write out1 ++ logged
      ++ map transport_write out2).
    { rewrite Ht2, Htb, Ht1, <- !app_assoc. reflexivity. }
    assert (Hsf : response_size f =
                  response_size self + total_len out1 + total_len out2).
    { rewrite Hs2, Hsb, Hs1. reflexivity. }
    rewrite K6.
    destruct (status f) as [st|] eqn:Est; [destruct (meta f) as [m|] eqn:Em|];
      cbn [fst snd trace emit status meta response_size];
      rewrite ?Est, ?Em, Htf, ?K3, ?K4, <- ?app_assoc;
      (split; [repeat split; assumption|]);
      left; (split; [reflexivity|]); (split; [exact Hsf | reflexivity]).
  - rewrite Hc. clear Hc.
    destruct (try_flush_status_raise _ _ Hf) as (-> & _ & _).
    exists out1, [], text. cbv zeta. cbn [fst snd].
    split; [reflexivity|]. split; [exact Hsame0|].
    right. split; [|reflexivity].
    rewrite Htb, Ht1, <- app_assoc. reflexivity.
Qed.

(** A request that does not parse: the traceback, what the flush writes,
    the close. *)
Lemma malformed_request_trace app self e :
  parse_header self = Raise e ->
  exists out : list bytes,
    trace (fst (_handle_request_noblock app self)) =
      trace self ++ [server_log_message (format_exc e)]
      ++ map transport_write out ++ [transport_loseConnection]
    /\ same_connection self (fst (_handle_request_noblock app self)).
Proof.
  intros Hp. unfold _handle_request_noblock.
  rewrite Hp, (parse_header_raises_Exception _ _ Hp). cbv zeta.
  rewrite bad_request_flush.
  set (s := write_status BAD_REQUEST "Malformed request"
              (emit (server_log_message (format_exc e)) self)).
  destruct (run_call_accounts FlushStatus s) as (out & Ht & _).
  cbn [run_call] in Ht.
  pose proof (same_connection_flush_status s) as Hsame.
  exists out. cbn [fst trace emit]. rewrite Ht.
  split; [unfold s; cbn [trace emit write_status set_status set_meta
                          set_response_buffer];
          rewrite <- !app_assoc; reflexivity|].
  destruct Hsame as (K1 & K2 & K3 & K4 & K5 & K6).
  repeat split; cbn [server transport client_addr connected_timestamp
                     request url emit]; assumption.
Qed.

(** X8. The handler closes the transport at most once and, when it does,
    as its last action: nothing is written or logged after
    [loseConnection].  The transport is left open only when the final
    flush raised [UnicodeEncodeError], which the coroutine then ends
    with. *)
Theorem close_is_the_last_action app line self :
  exists t,
    closes t = 0%nat
    /\ (trace (fst (lineReceived app line self)) =
          trace self ++ t ++ [transport_loseConnection]
        \/ (trace (fst (lineReceived app line self)) = trace self ++ t
            /\ snd (lineReceived app line self) =
                 Some (UnicodeEncodeError "surrogates not allowed"))).
Proof.
  unfold lineReceived.
  destruct (parse_header (set_request line self)) as [parsed | e] eqn:Hp.
  - destruct (parsed_request_trace app _ parsed Hp)
      as (out1 & out2 & text & _ & _ & [(Ht & _) | (Ht & Hs)]);
      cbv zeta in Ht.
    + match type of Ht with
      | _ = _ ++ ?a ++ ?b ++ ?c ++ ?d ++ _ => exists (a ++ b ++ c ++ d)
      end. split.
      * rewrite !closes_app, !closes_writes.
        destruct (snd (dispatch app parsed)) as [e|];
          [destruct (is_Exception e)|];
          destruct (status _) as [st|]; try destruct (meta _) as [m|];
          reflexivity.
      * left. rewrite Ht. cbn [trace set_request]. rewrite <- !app_assoc.
        reflexivity.
    + match type of Ht with
      | _ = _ ++ ?a ++ ?b => exists (a ++ b)
      end. split.
      * rewrite !closes_app, !closes_writes.
        destruct (snd (dispatch app parsed)) as [e|];
          [destruct (is_Exception e)|]; reflexivity.
      * right. split; [|exact Hs]. rewrite Ht. cbn [trace set_request].
        rewrite <- ?app_assoc. reflexivity.
  - destruct (malformed_request_trace app _ e Hp) as (out & Ht & _).
    match type of Ht with
    | _ = _ ++ ?a ++ ?b ++ _ => exists (a ++ b)
    end. split.
    + rewrite !closes_app, closes_writes. reflexivity.
    + left. rewrite Ht. cbn [trace set_request]. rewrite <- !app_assoc.
      reflexivity.
Qed.


(** X10. On a fresh connection whose request parses and whose handler
    gets to close the transport, the access line, when there is one,
    reports the peer host, the connection time, the URL, the last
    [status] and [meta] recorded and, as its size, the number of bytes
    that went to the transport; there is no access line exactly when
    [status] or [meta] was never set. *)
Theorem access_line_reports_bytes_sent app self parsed :
  parse_header self = Ok parsed ->
  trace self = [] ->
  response_size self = 0 ->
  let final := fst (_handle_request_noblock app self) in
  closes (trace final) = 1%nat ->
  exists text,
    url parsed = Some text
    /\ access_lines (trace final) =
         match status final, meta final with
         | Some st, Some m =>
             [format_message (host (client_addr self))
                (strftime TIMESTAMP_FORMAT (connected_timestamp self))
                text st m (total_len (written (trace final)))]
         | _, _ => []
         end.
Proof.
  intros Hp Htr Hz final Hclosed.
  destruct (parsed_request_trace app self parsed Hp)
    as (out1 & out2 & text & Hu & _ & [(Ht & Hs & _) | (Ht & _)]);
    cbv zeta in Ht; fold final in Ht.
  - cbv zeta in Hs. fold final in Hs. exists text. split; [exact Hu|].
    assert (Hw : total_len (written (trace final)) = response_size final).
    { rewrite Ht, Htr, Hs, Hz. cbn [List.app].
      rewrite !written_app, !total_len_app, !written_map_write.
      destruct (snd (dispatch app parsed)) as [e|];
        [destruct (is_Exception e)|];
        destruct (status final) as [st|]; try destruct (meta final) as [m|];
        cbn [written total_len fold_right]; lia. }
    rewrite Hw. rewrite Ht at 1. rewrite Htr. cbn [List.app].
    rewrite !access_lines_app, !access_lines_writes.
    destruct (snd (dispatch app parsed)) as [e|];
      [destruct (is_Exception e)|];
      destruct (status final) as [st|]; try destruct (meta final) as [m|];
      reflexivity.
  - exfalso. rewrite Ht, Htr in Hclosed. cbn [List.app] in Hclosed.
    rewrite closes_app, closes_writes in Hclosed.
    destruct (snd (dispatch app parsed)) as [e|];
      [destruct (is_Exception e)|]; discriminate.
Qed.

(** X11. The handler never touches what identifies the connection: the
    server, the transport, the peer address and the connection time are
    at the end what they were, the request is the line received, and the
    URL is the parsed one (or still unset when the line does not
    parse). *)
Theorem handler_keeps_the_connection app line self :
  let final := fst (lineReceived app line self) in
  server final = server self
  /\ transport final = transport self
  /\ client_addr final = client_addr self
  /\ connected_timestamp final = connected_timestamp self
  /\ request final = Some line
  /\ url final =
       match parse_header (set_request line self) with
       | Ok parsed => url parsed
       | Raise _ => url self
       end.
Proof.
  unfold lineReceived. cbv zeta.
  destruct (parse_header (set_request line self)) as [parsed | e] eqn:Hp.
  - destruct (parsed_request_trace app _ parsed Hp)
      as (out1 & out2 & text & _ & Hsame & _). cbv zeta in Hsame.
    destruct (parse_header_ok _ _ Hp) as [text' ->].
    destruct Hsame as (K1 & K2 & K3 & K4 & K5 & K6).
    repeat split; assumption.
  - destruct (malformed_request_trace app _ e Hp)
      as (out & _ & K1 & K2 & K3 & K4 & K5 & K6).
    repeat split; assumption.
Qed.

(** X12. An application that never calls [write_status], does not fail
    and yields only chunks that can be encoded gets its chunks sent as
    they are, with no status line before them, and leaves no access
    line; the transport is closed and the coroutine does not raise. *)
Theorem response_without_status app self parsed environ :
  parse_header self = Ok parsed ->
  build_environ parsed = Ok environ ->
  trace self = [] ->
  status self = None ->
  response_buffer self = EmptyString ->
  last_status (outcome_calls (app environ)) None = None ->
  chunks_encodable (outcome_calls (app environ)) = true ->
  outcome_error (app environ) = None ->
  trace (fst (_handle_request_noblock app self)) =
    map transport_write (bodies (outcome_calls (app environ)))
    ++ [transport_loseConnection]
  /\ snd (_handle_request_noblock app self) = None.
Proof.
  intros Hp Hb Htr Hst Hbuf Hl Henc He.
  destruct (parse_header_ok _ _ Hp) as [text ->].
  set (cs := outcome_calls (app environ)) in *.
  pose proof (try_run_calls_without_status cs (set_url text self)
                Hbuf Hl Henc) as Hrun.
  unfold _handle_request_noblock.
  rewrite Hp, (dispatch_returns app _ environ _ Hb Hrun), He.
  destruct (run_calls_without_status cs (set_url text self) Hbuf Hl)
    as [Ht Hbs].
  pose proof (status_meta_run_calls cs (set_url text self) None
                (status self, meta self) eq_refl) as Hf.
  rewrite Hl in Hf. injection Hf as Hs _.
  set (s := run_calls cs (set_url text self)) in *. clearbody s.
  unfold finally. rewrite (try_flush_status_empty _ Hbs).
  unfold log_request. rewrite (flush_status_empty _ Hbs).
  cbn [fst snd url status meta set_response_buffer]. rewrite Hs, Hst.
  split; [|reflexivity].
  destruct (url s); cbn [trace emit set_response_buffer];
    rewrite Ht; cbn [trace set_url]; rewrite Htr; reflexivity.
Qed.

(** ** Responses that succeed *)

Lemma finally_pending_status self st m text :
  url self = Some text ->
  response_size self = 0 ->
  Utf8.encodable (status_line st m) = true ->
  snd (finally None (write_status st m self)) = None
  /\ trace (fst (finally None (write_status st m self))) =
    trace self
    ++ [transport_write (Utf8.encode (status_line st m));
        server_log_message
          (access_line
             (format_message (host (client_addr self))
                (strftime TIMESTAMP_FORMAT (connected_timestamp self))
                text st m (len (Utf8.encode (status_line st m)))));
        transport_loseConnection].
Proof.
  intros Hu Hz Henc. unfold finally.
  rewrite try_flush_status_encodable; [|exact Henc].
  split; [reflexivity|].
  rewrite flush_status_pending; [|apply status_line_truthy | exact Hz].
  unfold log_request.
  cbn [fst url status meta trace emit set_response_buffer set_response_size
       write_status set_meta set_status response_buffer
       response_size client_addr connected_timestamp].
  rewrite Hu.
  cbn [trace emit set_response_buffer set_response_size
       write_status set_meta set_status].
  rewrite <- !app_assoc. reflexivity.
Qed.

Lemma finally_after_first_byte (in_flight : option exn) self :
  0 < response_size self ->
  written (trace (fst (finally in_flight self))) = written (trace self).
Proof.
  intros Hz. unfold finally.
  rewrite (try_flush_status_sent _ Hz), (flush_status_sent _ Hz).
  unfold log_request. cbn [fst url status meta set_response_buffer].
  destruct (url self), (status self), (meta self);
    cbn [trace emit set_response_buffer];
    rewrite !written_app; simpl; rewrite ?app_nil_r; reflexivity.
Qed.

(** X23. A response that consists of a status only (the application wrote
    one or more statuses, the last of which can be encoded, produced no
    chunk and did not fail) is sent by the [finally] clause: the
    transport receives the last status line, the access line reports
    that status with the length of the line, and the transport is
    closed; the coroutine does not raise. *)
Theorem status_only_response app self parsed environ
    (pre : list (Z * str)) st m :
  parse_header self = Ok parsed ->
  build_environ parsed = Ok environ ->
  response_size self = 0 ->
  outcome_calls (app environ) = status_calls pre ++ [WriteStatus st m] ->
  outcome_error (app environ) = None ->
  Utf8.encodable (status_line st m) = true ->
  exists text,
    url parsed = Some text
    /\ snd (_handle_request_noblock app self) = None
    /\ trace (fst (_handle_request_noblock app self)) =
         trace self
         ++ [transport_write (Utf8.encode (status_line st m));
             server_log_message
               (access_line
                  (format_message (host (client_addr self))
                     (strftime TIMESTAMP_FORMAT (connected_timestamp self))
                     text st m (len (Utf8.encode (status_line st m)))));
             transport_loseConnection].
Proof.
  intros Hp Hb Hz Hcs He Henc. destruct (parse_header_ok _ _ Hp) as [text ->].
  exists text. split; [reflexivity|].
  assert (Hrun : try_run_calls (outcome_calls (app environ))
                   (set_url text self) =
                 Ok (write_status st m
                       (run_calls (status_calls pre) (set_url text self)))).
  { rewrite Hcs.
    rewrite (try_run_calls_app _ _ _ _
               (try_run_calls_statuses pre (set_url text self))).
    reflexivity. }
  unfold _handle_request_noblock.
  rewrite Hp, (dispatch_returns app _ environ _ Hb Hrun), He.
  destruct (write_status_only pre (set_url text self)) as [Ht Hs].
  cbv zeta in Ht, Hs. fold (status_calls pre) in Ht, Hs.
  pose proof (same_connection_run_calls (status_calls pre)
                (set_url text self)) as (_ & _ & Hc & Hts & _ & Hu).
  set (s1 := run_calls (status_calls pre) (set_url text self)) in *.
  destruct (finally_pending_status s1 st m text Hu) as [Hsnd Htr];
    [rewrite Hs; exact Hz | exact Henc |].
  split; [exact Hsnd|]. rewrite Htr, Ht, Hc, Hts. reflexivity.
Qed.

(** X24. Once the application has written a status that can be encoded
    and then produced a first chunk, and as long as its chunks can be
    encoded, the client receives that status line followed by the chunks
    produced, and nothing else, whether the application goes on to finish
    or to fail and whatever it passes to [write_status] later. *)
Theorem response_is_status_then_chunks app self parsed environ
    (pre : list (Z * str)) st m data rest :
  parse_header self = Ok parsed ->
  build_environ parsed = Ok environ ->
  response_size self = 0 ->
  outcome_calls (app environ) =
    status_calls pre ++ WriteStatus st m :: WriteBody data :: rest ->
  Utf8.encodable (status_line st m) = true ->
  chunk_encodable data = true ->
  chunks_encodable rest = true ->
  written (trace (fst (_handle_request_noblock app self))) =
    written (trace self)
    ++ Utf8.encode (status_line st m) :: chunk_bytes data :: bodies rest.
Proof.
  intros Hp Hb Hz Hcs Henc Hdata Hrest.
  destruct (parse_header_ok _ _ Hp) as [text ->].
  destruct (write_status_only pre (set_url text self)) as [Ht Hsz].
  cbv zeta in Ht, Hsz. fold (status_calls pre) in Ht, Hsz.
  set (s1 := run_calls (status_calls pre) (set_url text self)) in *.
  assert (Hz1 : response_size s1 = 0) by (rewrite Hsz; exact Hz).
  destruct (first_body s1 st m data Hz1) as (Ht2 & Hs2 & _).
  cbv zeta in Ht2, Hs2.
  set (s3 := write_body data (write_status st m s1)) in *.
  assert (Hpos3 : 0 < response_size s3).
  { rewrite Hs2. pose proof (status_line_len_pos st m).
    pose proof (len_nonneg (chunk_bytes data)). lia. }
  destruct (after_first_byte rest s3 Hpos3) as [Ht3 Hs3].
  assert (Hrun : try_run_calls (outcome_calls (app environ))
                   (set_url text self) = Ok (run_calls rest s3)).
  { rewrite Hcs.
    rewrite (try_run_calls_app _ _ _ _
               (try_run_calls_statuses pre (set_url text self))).
    fold s1. cbn [try_run_calls try_run_call]. rewrite bind_Ok_result.
    rewrite try_write_body_cases, Hdata.
    rewrite try_flush_status_encodable; [|exact Henc].
    fold s3. rewrite bind_Ok_result.
    apply try_run_calls_after_first_byte; assumption. }
  unfold _handle_request_noblock.
  rewrite Hp, (dispatch_returns app _ environ _ Hb Hrun).
  set (s := run_calls rest s3) in *.
  assert (Hw : written (trace s) =
               written (trace self)
               ++ Utf8.encode (status_line st m)
                  :: chunk_bytes data :: bodies rest).
  { rewrite Ht3, Ht2, Ht. cbn [trace set_url].
    rewrite <- app_assoc, written_app.
    change ([transport_write (Utf8.encode (status_line st m));
             transport_write (chunk_bytes data)]
            ++ map transport_write (bodies rest))
      with (map transport_write
              (Utf8.encode (status_line st m)
               :: chunk_bytes data :: bodies rest)).
    rewrite written_map_write. reflexivity. }
  clearbody s.
  destruct (outcome_error (app environ)) as [e|];
    [destruct (is_Exception e)|].
  - rewrite finally_after_first_byte; [|exact Hs3].
    cbn [trace on_error emit write_status set_status set_meta
         set_response_buffer].
    rewrite written_app. simpl. rewrite app_nil_r. exact Hw.
  - rewrite finally_after_first_byte; [exact Hw | exact Hs3].
  - rewrite finally_after_first_byte; [exact Hw | exact Hs3].
Qed.

End HandlerOutcomes.

(** * Further properties of the context builder *)

Section EnvironContents.

Context `{RT : Runtime}.

Implicit Types (self : GeminiProtocol)
  (environ : gmap string (value x509_Certificate)).

Lemma bind_Raise {A B} (e : exn) (k : A -> result B) : Raise e ≫= k = Raise e.
Proof. reflexivity. Qed.

(** A successful [build_environ], with the inspected certificate named:
    one goal for a peer with a certificate, one for a peer without. *)
Ltac build_environ_inversion self cert cert_data :=
  unfold build_environ;
  let u := fresh "url_" in
  let parts := fresh "url_parts" in
  destruct (url self) as [u|] eqn:?; [|discriminate];
  destruct (urlparse u) as [parts|] eqn:?; [|discriminate];
  rewrite bind_Ok;
  destruct (getPeerCertificate (transport self)) as [cert|] eqn:?;
  [ destruct (inspect_certificate (to_cryptography cert))
      as [cert_data|] eqn:?; [|discriminate];
    rewrite bind_Ok; unfold getitem;
    repeat match goal with
      | |- context [cert_data !! ?k] =>
          destruct (cert_data !! k) eqn:?; [rewrite bind_Ok | discriminate]
      end;
    intros [= <-]
  | intros [= <-] ].

(** X13. [build_environ] returns exactly when the URL is set, [urlparse]
    can split it, and either the peer shows no certificate, or the
    certificate can be inspected and the inspection yields all five
    fields the builder reads. *)
Theorem build_environ_returns_iff self :
  (exists environ, build_environ self = Ok environ)
  <-> (exists url_,
         url self = Some url_
         /\ is_Some (urlparse url_)
         /\ match getPeerCertificate (transport self) with
            | None => True
            | Some cert =>
                exists cert_data,
                  inspect_certificate (to_cryptography cert) = Ok cert_data
                  /\ Forall (fun key => is_Some (cert_data !! key))
                       certificate_fields
            end).
Proof.
  split.
  - intros [environ H]. revert H.
    build_environ_inversion self cert cert_data.
    + eexists. split; [reflexivity|]. split; [eexists; eassumption|].
      exists cert_data. split; [reflexivity|].
      unfold certificate_fields. repeat constructor; eexists; eassumption.
    + eexists. split; [reflexivity|]. split; [eexists; eassumption | exact I].
  - intros (u & Hu & [parts Hparts] & Hc). unfold build_environ.
    rewrite Hu, Hparts, bind_Ok.
    destruct (getPeerCertificate (transport self)) as [cert|];
      [|eexists; reflexivity].
    destruct Hc as (cert_data & -> & Hf). rewrite bind_Ok. unfold getitem.
    unfold certificate_fields in Hf.
    repeat match goal with
      | H : Forall _ (_ :: _) |- _ =>
          let x := fresh "v" in
          let Hx := fresh "Hv" in
          apply Forall_cons_1 in H; destruct H as [[x Hx] H];
          rewrite Hx, bind_Ok
      end.
    eexists. reflexivity.
Qed.

(** X14. With a URL that [urlparse] can split and a certificate that can
    be inspected, the first of the five fields missing from the
    inspection result makes [build_environ] raise [KeyError] for that
    field. *)
Theorem missing_certificate_field_raises self url_ cert cert_data
    (found : list str) (key : str) (rest : list str) :
  url self = Some url_ ->
  is_Some (urlparse url_) ->
  getPeerCertificate (transport self) = Some cert ->
  inspect_certificate (to_cryptography cert) = Ok cert_data ->
  certificate_fields = found ++ key :: rest ->
  Forall (fun k => is_Some (cert_data !! k)) found ->
  cert_data !! key = None ->
  build_environ self = Raise (KeyError key).
Proof.
  intros Hu [parts Hparts] Hc Hi Hsplit Hfound Hkey.
  unfold build_environ. rewrite Hu, Hparts, bind_Ok, Hc, Hi, bind_Ok.
  unfold getitem.
  unfold certificate_fields in Hsplit.
  repeat (destruct found as [|? found]; cbn [List.app] in Hsplit;
          [ injection Hsplit as <- <-; rewrite Hkey; reflexivity
          | injection Hsplit as <- Hsplit;
            apply Forall_cons_1 in Hfound;
            destruct Hfound as [[? Hv] Hfound]; rewrite Hv, bind_Ok;
            clear Hv ]).
  destruct found; discriminate.
Qed.

(** X15. The dictionary has the eleven keys of the literal and, for a peer
    with a certificate, the nine TLS keys as well; it never has any other
    key. *)
Theorem environ_keys_exact self environ :
  build_environ self = Ok environ ->
  dom environ =
    list_to_set
      (base_keys
       ++ match getPeerCertificate (transport self) with
          | Some _ => tls_keys
          | None => []
          end).
Proof.
  build_environ_inversion self cert cert_data;
    rewrite ?dom_union_L, !dom_insert_L, !dom_empty_L;
    unfold base_keys, tls_keys; cbn [List.app list_to_set foldr];
    set_solver.
Qed.

(** X16. Presenting a certificate only adds to the context: every entry
    other than [client_certificate] and the nine TLS keys is what the same
    connection without a certificate gets. *)
Theorem certificate_only_adds_entries self environ :
  build_environ self = Ok environ ->
  exists anonymous,
    build_environ (without_certificate self) = Ok anonymous
    /\ forall key,
         key <> "client_certificate" ->
         ~ In key tls_keys ->
         environ !! key = anonymous !! key.
Proof.
  build_environ_inversion self cert cert_data.
  - eexists. split.
    + unfold build_environ. cbn [url without_certificate transport
        getPeerCertificate]. rewrite Heqo, Heqo0. reflexivity.
    + intros key Hne Hnot.
      etransitivity; [apply lookup_union_r | reflexivity].
      repeat (rewrite lookup_insert_ne;
              [| intros <-;
                 first [ apply Hne; reflexivity
                       | apply Hnot; unfold tls_keys; simpl; tauto ] ]).
      apply lookup_empty.
  - eexists. split.
    + unfold build_environ. cbn [url without_certificate transport
        getPeerCertificate]. rewrite Heqo, Heqo0. reflexivity.
    + reflexivity.
Qed.

(** X17. For a peer with a certificate the TLS entries are: the fixed
    [AUTH_TYPE], the five fields of the inspected certificate, the flag
    the handshake stashed on the connection ([False] when it stashed
    none), and the cipher and protocol names of the connection. *)
Theorem tls_entries self environ cert :
  build_environ self = Ok environ ->
  getPeerCertificate (transport self) = Some cert ->
  exists cert_data,
    inspect_certificate (to_cryptography cert) = Ok cert_data
    /\ environ !! "AUTH_TYPE" = Some (VStr "CERTIFICATE")
    /\ environ !! "REMOTE_USER" = cert_data !! "common_name"
    /\ environ !! "TLS_CLIENT_HASH" = cert_data !! "fingerprint"
    /\ environ !! "TLS_CLIENT_NOT_BEFORE" = cert_data !! "not_before"
    /\ environ !! "TLS_CLIENT_NOT_AFTER" = cert_data !! "not_after"
    /\ environ !! "TLS_CLIENT_SERIAL_NUMBER" = cert_data !! "serial_number"
    /\ environ !! "TLS_CLIENT_VERIFIED" =
         Some (default (VBool false) (verified (getHandle (transport self))))
    /\ environ !! "TLS_CIPHER" =
         Some (get_cipher_name (getHandle (transport self)))
    /\ environ !! "TLS_VERSION" =
         Some (get_protocol_version_name (getHandle (transport self))).
Proof.
  intros H Hc. revert H.
  build_environ_inversion self cert' cert_data; [|discriminate].
  injection Hc as <-. exists cert_data. split; [assumption|].
  repeat match goal with
    | H : cert_data !! _ = Some _ |- _ => rewrite H; clear H
    end.
  repeat split.
Qed.

(** X18. Whether or not a certificate is presented, the request and server
    entries are: the URL as parsed, its path and query as [urlparse]
    splits it, the server's hostname under both [HOSTNAME] and
    [SERVER_NAME], the protocol name and the software banner. *)
Theorem request_and_server_entries self environ :
  build_environ self = Ok environ ->
  exists url_ url_parts,
    url self = Some url_
    /\ urlparse url_ = Some url_parts
    /\ environ !! "GEMINI_URL" = Some (VStr url_)
    /\ environ !! "PATH_INFO" = Some (VStr (path url_parts))
    /\ environ !! "QUERY_STRING" = Some (VStr (query url_parts))
    /\ environ !! "HOSTNAME" = Some (VStr (hostname (server self)))
    /\ environ !! "SERVER_NAME" = Some (VStr (hostname (server self)))
    /\ environ !! "SERVER_PROTOCOL" = Some (VStr "GEMINI")
    /\ environ !! "SERVER_SOFTWARE" =
         Some (VStr ("jetforce/" +:+ __version__)).
Proof.
  build_environ_inversion self cert cert_data;
    eexists; eexists; (split; [reflexivity|]); (split; [eassumption|]);
    repeat split.
Qed.

End EnvironContents.

(** * Further properties of the parser, the status line and the logger *)

Section Wire.

Context `{RT : Runtime}.

Implicit Types (self : GeminiProtocol).

(** X19. A request line of at most 1024 bytes, all of them ASCII, always
    parses, and the URL is that line read as text. *)
Theorem ascii_request_is_accepted self line :
  request self = Some line ->
  is_ascii line = true ->
  len line <= 1024 ->
  parse_header self = Ok (set_url (string_of_list_byte line) self)
  /\ Utf8.encode (string_of_list_byte line) = line.
Proof.
  intros Hr Ha Hl. unfold parse_header, Utf8.decode. rewrite Hr.
  destruct (Z.gtb_spec (len line) 1024) as [Hlong | _]; [lia|].
  rewrite (ascii_well_formed line Ha).
  split; [reflexivity | apply list_byte_of_string_of_list_byte].
Qed.

(** X20. The URL determines the request line: two connections whose
    requests parse to the same URL received the same bytes. *)
Theorem parse_header_injective (a b a' b' : GeminiProtocol) :
  parse_header a = Ok a' ->
  parse_header b = Ok b' ->
  url a' = url b' ->
  request a = request b.
Proof.
  unfold parse_header.
  destruct (request a) as [la|]; [|discriminate].
  destruct (request b) as [lb|]; [|discriminate].
  destruct (len la >? 1024); [discriminate|].
  destruct (len lb >? 1024); [discriminate|].
  destruct (Utf8.decode la) as [ta|] eqn:Hda; [|discriminate].
  destruct (Utf8.decode lb) as [tb|] eqn:Hdb; [|discriminate].
  intros [= <-] [= <-]. cbn [url set_url]. intros [= ->].
  rewrite <- (decode_encode la tb Hda), <- (decode_encode lb tb Hdb).
  reflexivity.
Qed.

(** ** Reading a status line back *)

Lemma pretty_N_char_not_tab (x : N) :
  Ascii.eqb (pretty_N_char x) "009" = false.
Proof. unfold pretty_N_char. repeat case_match; reflexivity. Qed.

Lemma pretty_N_go_no_tab (x : N) (s : str) :
  has_tab s = false -> has_tab (pretty_N_go x s) = false.
Proof.
  revert s. induction (N.lt_wf_0 x) as [x _ IH]. intros s Hs.
  destruct (decide (x = 0%N)) as [-> | Hx].
  - rewrite pretty_N_go_0. exact Hs.
  - rewrite pretty_N_go_step by lia. apply IH.
    + apply N.div_lt; lia.
    + cbn [has_tab]. rewrite pretty_N_char_not_tab. exact Hs.
Qed.

Lemma pretty_N_no_tab (x : N) : has_tab (pretty x) = false.
Proof.
  unfold pretty, pretty_N. case_decide; [reflexivity|].
  apply pretty_N_go_no_tab. reflexivity.
Qed.

Lemma pretty_Z_no_tab (n : Z) : has_tab (pretty n) = false.
Proof.
  unfold pretty, pretty_Z. destruct n as [|p|p].
  - reflexivity.
  - apply pretty_N_no_tab.
  - change (has_tab (String "-" (pretty (Npos p))) = false).
    cbn [has_tab]. apply (pretty_N_no_tab (Npos p)).
Qed.

(** Text before the first TAB is determined by the whole. *)
Lemma split_at_first_tab (a a' r r' : str) :
  has_tab a = false -> has_tab a' = false ->
  a +:+ TAB +:+ r = a' +:+ TAB +:+ r' ->
  a = a' /\ r = r'.
Proof.
  revert a'. induction a as [|c a IH]; intros [|c' a'] Ha Ha' H.
  - change (String "009" r = String "009" r') in H.
    injection H as ->. split; reflexivity.
  - change (String "009" r = String c' (a' +:+ TAB +:+ r')) in H.
    injection H as <- _. discriminate Ha'.
  - change (String c (a +:+ TAB +:+ r) = String "009" r') in H.
    injection H as -> _. discriminate Ha.
  - change (String c (a +:+ TAB +:+ r) = String c' (a' +:+ TAB +:+ r')) in H.
    injection H as -> H. cbn [has_tab] in Ha, Ha'.
    apply orb_false_elim in Ha as [_ Ha].
    apply orb_false_elim in Ha' as [_ Ha'].
    destruct (IH a' Ha Ha' H) as [-> ->]. split; reflexivity.
Qed.

Lemma length_append_str (a b : str) :
  String.length (a +:+ b) = (String.length a + String.length b)%nat.
Proof.
  induction a as [|c a IH]; [reflexivity|].
  change (S (String.length (a +:+ b)) = S (String.length a + String.length b)).
  rewrite IH. reflexivity.
Qed.

Lemma append_inv_tail (a a' t : str) : a +:+ t = a' +:+ t -> a = a'.
Proof.
  revert a'. induction a as [|c a IH]; intros [|c' a'] H.
  - reflexivity.
  - apply (f_equal String.length) in H.
    rewrite !length_append_str in H. simpl in H. lia.
  - apply (f_equal String.length) in H.
    rewrite !length_append_str in H. simpl in H. lia.
  - change (String c (a +:+ t) = String c' (a' +:+ t)) in H.
    injection H as -> H. rewrite (IH a' H). reflexivity.
Qed.

(** X21. The status line can be read back: two status lines are equal only
    if they were written with the same status code and the same meta. *)
Theorem status_line_injective (st st' : Z) (m m' : str) :
  status_line st m = status_line st' m' -> st = st' /\ m = m'.
Proof.
  unfold status_line. intros H.
  destruct (split_at_first_tab _ _ _ _
              (pretty_Z_no_tab st) (pretty_Z_no_tab st') H) as [Hst Hm].
  split.
  - apply (inj pretty). exact Hst.
  - apply (append_inv_tail _ _ CRLF). exact Hm.
Qed.

(** ** The access logger *)

(** X22. [log_request] leaves the connection exactly as it was when one of
    [url], [status] and [meta] is not set, and only then; otherwise what
    it adds to the trace is one access line and nothing else, so it
    neither writes to the transport nor closes it. *)
Theorem log_request_silent_iff self :
  (log_request self = self <->
   url self = None \/ status self = None \/ meta self = None)
  /\ (log_request self = self
      \/ exists line,
           trace (log_request self) =
             trace self ++ [server_log_message (access_line line)])
  /\ written (trace (log_request self)) = written (trace self)
  /\ closes (trace (log_request self)) = closes (trace self)
  /\ tracebacks (trace (log_request self)) = tracebacks (trace self).
Proof.
  assert (Htb : forall t1 t2,
             tracebacks (t1 ++ t2) = tracebacks t1 ++ tracebacks t2).
  { intros t1 t2. induction t1 as [|e t1 IH]; [reflexivity|].
    destruct e as [| |[|]]; simpl; rewrite IH; reflexivity. }
  split; [|split].
  - unfold log_request.
    destruct (url self) as [u|];
      [|split; [intros _; left; reflexivity | intros _; reflexivity]].
    destruct (status self) as [st|];
      [|split; [intros _; right; left; reflexivity | intros _; reflexivity]].
    destruct (meta self) as [m|];
      [|split; [intros _; right; right; reflexivity | intros _; reflexivity]].
    split.
    + intros H. apply (f_equal trace) in H. cbn [trace emit] in H.
      apply (f_equal (@length event)) in H. rewrite length_app in H.
      simpl in H. lia.
    + intros [H | [H | H]]; discriminate.
  - unfold log_request.
    destruct (url self) as [u|], (status self) as [st|], (meta self) as [m|];
      try (left; reflexivity).
    right. eexists. reflexivity.
  - unfold log_request.
    destruct (url self) as [u|], (status self) as [st|], (meta self) as [m|];
      cbn [trace emit];
      rewrite ?written_app, ?closes_app, ?Htb;
      simpl; rewrite ?app_nil_r, ?Nat.add_0_r;
      repeat split; reflexivity.
Qed.

End Wire.

(** * Concrete runs *)

Section Runs.

Import Sample.

(** ** The codec *)

(** Two-byte e-acute decodes; an overlong slash, an encoded surrogate, a
    code point above U+10FFFF and a truncated sequence do not. *)
Example strict_utf8 :
  Utf8.well_formed ["195"; "169"]%byte = true
  /\ Utf8.well_formed ["192"; "175"]%byte = false
  /\ Utf8.well_formed ["237"; "160"; "128"]%byte = false
  /\ Utf8.well_formed ["244"; "144"; "128"; "128"]%byte = false
  /\ Utf8.well_formed ["226"; "130"]%byte = false
  /\ Utf8.decode request_line = Some "gemini://example.org/".
Proof. repeat split; reflexivity. Qed.

(** ** The handler end to end *)

(** A well-formed request to [hello]: status line, body, one access line,
    close. *)
Example hello_run :
  lineReceived hello request_line fresh
  = (fst (lineReceived hello request_line fresh), None)
  /\ trace (fst (lineReceived hello request_line fresh)) =
       [transport_write (Utf8.encode (status_line 20 "text/gemini"));
        transport_write (Utf8.encode "# Hello");
        server_log_message
          (access_line
             (format_message "203.0.113.7" "01/Jan/2020:12:00:00 +0000"
                "gemini://example.org/" 20 "text/gemini" 23));
        transport_loseConnection].
Proof. split; vm_compute; reflexivity. Qed.

(** An application that never calls [write_status]: the logger finds no
    [status] attribute and stays silent. *)
Example silent_run :
  trace (fst (lineReceived silent request_line fresh)) =
    [transport_write []; transport_loseConnection].
Proof. vm_compute. reflexivity. Qed.

(** An application that raises [SystemExit] after writing its status: the
    [except Exception] clause does not run, the application's own status
    is flushed and logged, and the exception is re-raised. *)
Example exits_run :
  lineReceived exits request_line fresh
  = (fst (lineReceived exits request_line fresh),
     Some (Exception "SystemExit" "0"))
  /\ trace (fst (lineReceived exits request_line fresh)) =
       [transport_write (Utf8.encode (status_line 20 "text/gemini"));
        server_log_message
          (access_line
             (format_message "203.0.113.7" "01/Jan/2020:12:00:00 +0000"
                "gemini://example.org/" 20 "text/gemini" 16));
        transport_loseConnection].
Proof. split; vm_compute; reflexivity. Qed.

(** A status whose meta cannot be encoded: the flush of the [finally]
    clause raises, nothing is sent or logged and the transport is not
    closed. *)
Example garbled_run :
  lineReceived garbled request_line fresh
  = (write_status 20 surrogate parsed,
     Some (UnicodeEncodeError "surrogates not allowed"))
  /\ trace (fst (lineReceived garbled request_line fresh)) = [].
Proof. split; vm_compute; reflexivity. Qed.

(** A chunk that cannot be encoded: [write_body] raises inside the [try],
    so the [except] clause answers with [CGI_ERROR]. *)
Example bad_chunk_run :
  snd (lineReceived bad_chunk request_line fresh) = None
  /\ trace (fst (lineReceived bad_chunk request_line fresh)) =
       [server_log_message
          (format_exc (UnicodeEncodeError "surrogates not allowed"));
        transport_write
          (Utf8.encode (status_line 42 "An unexpected error occurred"));
        server_log_message
          (access_line
             (format_message "203.0.113.7" "01/Jan/2020:12:00:00 +0000"
                "gemini://example.org/" 42 "An unexpected error occurred"
                33));
        transport_loseConnection].
Proof. split; vm_compute; reflexivity. Qed.

(** A URL that [urlparse] cannot split: the environ is not built and the
    application is not called. *)
Example unsplittable_url_run :
  build_environ (set_url "gemini://[" received)
  = Raise (ValueError "invalid URL")
  /\ written
       (trace (fst (lineReceived hello (Utf8.encode "gemini://[") fresh))) =
       [Utf8.encode (status_line 42 "An unexpected error occurred")].
Proof. split; vm_compute; reflexivity. Qed.

(** ** Instances of the theorems *)




Lemma tls_identity_block_all_or_nothing_witness :
  exists environ,
    build_environ parsed_identified = Ok environ
    /\ Forall (fun key => is_Some (environ !! key)) tls_keys
    /\ environ !! "client_certificate" = Some (VCert "alice").
Proof.
  eexists. split; [reflexivity|].
  exact (tls_identity_block_all_or_nothing parsed_identified _ eq_refl).
Defined.

Lemma remote_addr_equals_remote_host_witness :
  exists environ,
    build_environ parsed = Ok environ
    /\ environ !! "REMOTE_ADDR" = environ !! "REMOTE_HOST".
Proof.
  eexists. split; [reflexivity|].
  exact (proj1 (remote_addr_equals_remote_host parsed _ eq_refl)).
Defined.

(** ** Where the code departs from the specification *)



(** C6, as stated, fails: with the status line of 20 already on the wire,
    [write_status] still replaces [status] and [meta]; when the
    application breaks after its first chunk the client has received
    status 20 and the access line reports 42. *)
Lemma status_rewritten_after_flush :
  let sent := write_body (Str "hi") (write_status 20 "text/gemini" parsed) in
  let late := write_status 42 "An unexpected error occurred" sent in
  let final := fst (lineReceived breaks_midway request_line fresh) in
  (0 < response_size sent
   /\ status sent = Some 20
   /\ status late <> status sent
   /\ meta late <> meta sent)
  /\ socket_bytes (trace final) =
       Utf8.encode (status_line 20 "text/gemini") ++ Utf8.encode "hi"
  /\ access_lines (trace final) =
       [format_message "203.0.113.7" "01/Jan/2020:12:00:00 +0000"
          "gemini://example.org/" 42 "An unexpected error occurred" 18].
Proof. vm_compute. repeat split; discriminate. Qed.

(** C7. For a server listening on port 1965 and a client connecting from
    port 54321, [SERVER_PORT] is the client's port. *)
Theorem server_port_is_the_peer_port :
  listening_port (server parsed) = 1965
  /\ port (getPeer (transport parsed)) = 54321
  /\ exists environ,
       build_environ parsed = Ok environ
       /\ environ !! "SERVER_PORT" = Some (VStr "54321")
       /\ environ !! "SERVER_PORT"
          <> Some (VStr (pretty (listening_port (server parsed)))).
Proof.
  split; [reflexivity|]. split; [reflexivity|].
  eexists. split; [reflexivity|]. split; [reflexivity|].
  vm_compute. discriminate.
Qed.

End Runs.


(** * Instances of the further properties *)

Section MoreRuns.

Import Sample.






Lemma build_environ_failure_skips_application_witness :
  let self := set_request Faulty.request_line
                (connectionMade Faulty.srv (Faulty.from "mallory") tt) in
  let e := Exception "ValueError" "unsupported certificate" in
  (parse_header self = Ok (Faulty.parsed "mallory")
   /\ build_environ (Faulty.parsed "mallory") = Raise e
   /\ response_size self = 0)
  /\ exists text,
       url (Faulty.parsed "mallory") = Some text
       /\ _handle_request_noblock Faulty.hello self =
            finally None (on_error e (Faulty.parsed "mallory"))
       /\ snd (finally None (on_error e (Faulty.parsed "mallory"))) = None.
Proof.
  intros self e. split; [repeat split; reflexivity|].
  destruct (build_environ_failure_skips_application Faulty.hello self
              (Faulty.parsed "mallory") e eq_refl eq_refl eq_refl)
    as (text & Hu & Hh & Hs & _).
  exists text. split; [exact Hu|]. split; [exact Hh | exact Hs].
Defined.

Lemma access_line_reports_bytes_sent_witness :
  (parse_header received = Ok parsed
   /\ trace received = []
   /\ response_size received = 0
   /\ closes (trace (fst (_handle_request_noblock hello received))) = 1%nat)
  /\ access_lines (trace (fst (_handle_request_noblock hello received))) =
     [format_message "203.0.113.7" "01/Jan/2020:12:00:00 +0000"
        "gemini://example.org/" 20 "text/gemini" 23].
Proof.
  assert (Hc : closes (trace (fst (_handle_request_noblock hello received)))
               = 1%nat) by (vm_compute; reflexivity).
  split; [exact (conj eq_refl (conj eq_refl (conj eq_refl Hc)))|].
  destruct (access_line_reports_bytes_sent hello received parsed
              eq_refl eq_refl eq_refl Hc) as (text & Hu & Ha).
  rewrite Ha. vm_compute in Hu. injection Hu as <-.
  vm_compute. reflexivity.
Defined.

Lemma response_without_status_witness :
  exists environ,
    (parse_header received = Ok parsed
     /\ build_environ parsed = Ok environ
     /\ trace received = []
     /\ status received = None
     /\ response_buffer received = EmptyString
     /\ last_status (outcome_calls (silent environ)) None = None
     /\ chunks_encodable (outcome_calls (silent environ)) = true
     /\ outcome_error (silent environ) = None)
    /\ (trace (fst (_handle_request_noblock silent received)) =
          [transport_write []; transport_loseConnection]
        /\ snd (_handle_request_noblock silent received) = None).
Proof.
  eexists. split; [repeat split; reflexivity|].
  exact (response_without_status silent received parsed _
           eq_refl eq_refl eq_refl eq_refl eq_refl eq_refl eq_refl eq_refl).
Defined.

Lemma missing_certificate_field_raises_witness :
  (url (Faulty.parsed "bob") = Some "gemini://example.org/"
   /\ is_Some (@urlparse Faulty.runtime "gemini://example.org/")
   /\ getPeerCertificate (transport (Faulty.parsed "bob")) = Some "bob"
   /\ @inspect_certificate Faulty.runtime
        (@to_cryptography Faulty.runtime "bob") = Ok (Faulty.fields "bob")
   /\ certificate_fields =
        ["common_name"; "fingerprint"; "not_before"]
        ++ "not_after" :: ["serial_number"]
   /\ Forall (fun k => is_Some (Faulty.fields "bob" !! k))
        ["common_name"; "fingerprint"; "not_before"]
   /\ Faulty.fields "bob" !! "not_after" = None)
  /\ build_environ (Faulty.parsed "bob") = Raise (KeyError "not_after").
Proof.
  assert (Hf : Forall (fun k => is_Some (Faulty.fields "bob" !! k))
                 ["common_name"; "fingerprint"; "not_before"])
    by (repeat constructor; eexists; reflexivity).
  assert (Hu : is_Some (@urlparse Faulty.runtime "gemini://example.org/"))
    by (eexists; reflexivity).
  split; [repeat split; first [exact Hf | exact Hu | reflexivity]|].
  exact (missing_certificate_field_raises (Faulty.parsed "bob")
           "gemini://example.org/" "bob" (Faulty.fields "bob")
           ["common_name"; "fingerprint"; "not_before"] "not_after"
           ["serial_number"] eq_refl Hu eq_refl eq_refl eq_refl Hf eq_refl).
Defined.

Lemma environ_keys_exact_witness :
  exists environ,
    build_environ parsed_identified = Ok environ
    /\ dom environ = list_to_set (base_keys ++ tls_keys).
Proof.
  eexists. split; [reflexivity|].
  exact (environ_keys_exact parsed_identified _ eq_refl).
Defined.

Lemma certificate_only_adds_entries_witness :
  exists environ,
    build_environ parsed_identified = Ok environ
    /\ exists anonymous,
         build_environ (without_certificate parsed_identified) = Ok anonymous
         /\ forall key,
              key <> "client_certificate" ->
              ~ In key tls_keys ->
              environ !! key = anonymous !! key.
Proof.
  eexists. split; [reflexivity|].
  exact (certificate_only_adds_entries parsed_identified _ eq_refl).
Defined.

Lemma tls_entries_witness :
  exists environ,
    (build_environ parsed_identified = Ok environ
     /\ getPeerCertificate (transport parsed_identified) = Some "alice")
    /\ environ !! "AUTH_TYPE" = Some (VStr "CERTIFICATE")
    /\ environ !! "TLS_CLIENT_VERIFIED" = Some (VBool false).
Proof.
  eexists. split; [split; reflexivity|].
  destruct (tls_entries parsed_identified _ "alice" eq_refl eq_refl)
    as (cert_data & _ & Ha & _ & _ & _ & _ & _ & Hv & _).
  split; [exact Ha | exact Hv].
Defined.

Lemma request_and_server_entries_witness :
  exists environ,
    build_environ parsed = Ok environ
    /\ exists url_ url_parts,
         url parsed = Some url_
         /\ urlparse url_ = Some url_parts
         /\ environ !! "GEMINI_URL" = Some (VStr url_)
         /\ environ !! "PATH_INFO" = Some (VStr (path url_parts))
         /\ environ !! "QUERY_STRING" = Some (VStr (query url_parts))
         /\ environ !! "HOSTNAME" = Some (VStr "example.org")
         /\ environ !! "SERVER_NAME" = Some (VStr "example.org")
         /\ environ !! "SERVER_PROTOCOL" = Some (VStr "GEMINI")
         /\ environ !! "SERVER_SOFTWARE" = Some (VStr "jetforce/0.2.0").
Proof.
  eexists. split; [reflexivity|].
  exact (request_and_server_entries parsed _ eq_refl).
Defined.

Lemma ascii_request_is_accepted_witness :
  (request received = Some request_line
   /\ is_ascii request_line = true
   /\ len request_line <= 1024)
  /\ parse_header received = Ok parsed.
Proof.
  assert (Hl : len request_line <= 1024) by (vm_compute; discriminate).
  split; [repeat split; try reflexivity; exact Hl|].
  exact (proj1 (ascii_request_is_accepted received request_line
                  eq_refl eq_refl Hl)).
Defined.

Lemma parse_header_injective_witness :
  (parse_header received = Ok parsed
   /\ parse_header (set_request request_line (connectionMade srv identified tt))
      = Ok parsed_identified
   /\ url parsed = url parsed_identified)
  /\ request received =
     request (set_request request_line (connectionMade srv identified tt)).
Proof.
  split; [repeat split; reflexivity|].
  exact (parse_header_injective received
           (set_request request_line (connectionMade srv identified tt))
           parsed parsed_identified eq_refl eq_refl eq_refl).
Defined.

Lemma status_line_injective_witness :
  status_line 20 "text/gemini" = status_line (10 + 10) "text/gemini"
  /\ (20 = 10 + 10 /\ "text/gemini" = "text/gemini").
Proof.
  split; [reflexivity|].
  exact (status_line_injective 20 (10 + 10) "text/gemini" "text/gemini"
           eq_refl).
Defined.

Lemma status_only_response_witness :
  exists environ,
    (parse_header received = Ok parsed
     /\ build_environ parsed = Ok environ
     /\ response_size received = 0
     /\ outcome_calls (redirects environ) =
          status_calls [] ++ [WriteStatus 31 "gemini://example.org/new"]
     /\ outcome_error (redirects environ) = None
     /\ Utf8.encodable (status_line 31 "gemini://example.org/new") = true)
    /\ written (trace (fst (_handle_request_noblock redirects received))) =
         [Utf8.encode (status_line 31 "gemini://example.org/new")].
Proof.
  assert (He : Utf8.encodable (status_line 31 "gemini://example.org/new")
               = true) by (vm_compute; reflexivity).
  eexists.
  split; [exact (conj eq_refl (conj eq_refl (conj eq_refl
                   (conj eq_refl (conj eq_refl He)))))|].
  destruct (status_only_response redirects received parsed _ []
              31 "gemini://example.org/new"
              eq_refl eq_refl eq_refl eq_refl eq_refl He)
    as (text & _ & _ & Ht).
  rewrite Ht. vm_compute. reflexivity.
Defined.

Lemma response_is_status_then_chunks_witness :
  exists environ,
    (parse_header received = Ok parsed
     /\ build_environ parsed = Ok environ
     /\ response_size received = 0
     /\ outcome_calls (breaks_midway environ) =
          status_calls []
          ++ WriteStatus 20 "text/gemini" :: WriteBody (Str "hi") :: []
     /\ Utf8.encodable (status_line 20 "text/gemini") = true
     /\ chunk_encodable (Str "hi") = true
     /\ chunks_encodable [] = true)
    /\ written (trace (fst (_handle_request_noblock breaks_midway received))) =
         written (trace received)
         ++ [Utf8.encode (status_line 20 "text/gemini"); Utf8.encode "hi"].
Proof.
  assert (He : Utf8.encodable (status_line 20 "text/gemini") = true)
    by (vm_compute; reflexivity).
  eexists.
  split; [exact (conj eq_refl (conj eq_refl (conj eq_refl
                   (conj eq_refl (conj He (conj eq_refl eq_refl))))))|].
  exact (response_is_status_then_chunks breaks_midway received parsed _ []
           20 "text/gemini" (Str "hi") []
           eq_refl eq_refl eq_refl eq_refl He eq_refl eq_refl).
Defined.

End MoreRuns.
